(** * anguis: resource allocation helper ([src/anguis/resources.py])

    A shallow embedding of [SnakemakeResourcesManager] and a verification of
    the properties its specification states.

    Modelling conventions.
    - Python [int] is [Z]; Python [float] is the rational number it denotes
      ([Q]).  The arithmetic the class performs on floats (a product with a
      power of the attempt multiplier, followed by [int] or by formatting) is
      computed exactly on rationals; binary64 agrees with it as long as the
      operands and the result are dyadic and fit 53 bits, which is the case
      for every concrete evaluation in this file.  Infinities and NaN are
      not represented.
    - Python [str] is [string], read as ASCII text.
    - Dictionaries are [gmap]s.  The dictionary handed to the constructor is
      an object shared with the caller, so it lives in a heap and the
      manager holds its address.
    - A method is a function from the world (manager, heap, standard output)
      to an outcome (a value or a raised exception) and the world after the
      call; an exception does not roll the world back. *)

From Stdlib Require Import ZArith QArith Qround Qpower String Ascii List Lia.
From stdpp Require Import base gmap strings pretty.

Open Scope Z_scope.

(** ** Python built-ins used by the class *)

Module Py.

Inductive value : Type :=
  | VNone
  | VInt (z : Z)
  | VFloat (q : Q)
  | VStr (s : string).

Inductive exn : Type :=
  | KeyError
  | ValueError
  | TypeError
  | NameError
  | IndexError
  | AttributeError
  | ZeroDivisionError.

Inductive outcome (A : Type) : Type :=
  | Ok (a : A)
  | Raise (e : exn).
Arguments Ok {A} a.
Arguments Raise {A} e.

(** *** Characters and strings *)

Definition code (c : ascii) : Z := Z.of_N (N_of_ascii c).

Definition is_digit (c : ascii) : bool := (48 <=? code c) && (code c <=? 57).

(** [str.isspace] on ASCII: tab, line feed, vertical tab, form feed,
    carriage return, the four separators 0x1c-0x1f and the space. *)
Definition is_space (c : ascii) : bool :=
  ((9 <=? code c) && (code c <=? 13)) || ((28 <=? code c) && (code c <=? 32)).

Definition digit_val (c : ascii) : Z := code c - 48.

Definition chars (s : string) : list ascii := list_ascii_of_string s.
Definition str_of (l : list ascii) : string := string_of_list_ascii l.

(** [s.isdigit()]: non-empty and made of decimal digits only. *)
Definition isdigit (s : string) : bool :=
  match chars s with
  | [] => false
  | l => forallb is_digit l
  end.

Fixpoint lstrip (l : list ascii) : list ascii :=
  match l with
  | c :: r => if is_space c then lstrip r else l
  | [] => []
  end.

Definition strip (l : list ascii) : list ascii :=
  rev (lstrip (rev (lstrip l))).

(** [s[-1]] and [s[:-1]]; the first raises [IndexError] on the empty
    string, the second never raises. *)
Definition last_char (s : string) : outcome ascii :=
  match rev (chars s) with
  | c :: _ => Ok c
  | [] => Raise IndexError
  end.

Definition but_last (s : string) : string :=
  str_of (removelast (chars s)).

(** [re.split(':|-', s)]: cut at every colon and every hyphen, keeping the
    empty fields. *)
Definition is_sep (c : ascii) : bool := (code c =? 58) || (code c =? 45).

Fixpoint split_fields (l : list ascii) : list (list ascii) :=
  match l with
  | [] => [[]]
  | c :: r =>
      if is_sep c then [] :: split_fields r
      else match split_fields r with
           | f :: fs => (c :: f) :: fs
           | [] => [[c]]
           end
  end.

Definition re_split (s : string) : list string :=
  map str_of (split_fields (chars s)).

(** *** Numeric literals in strings *)

(** The longest prefix made of digits and underscores, and the rest. *)
Fixpoint span_group (l : list ascii) : list ascii * list ascii :=
  match l with
  | c :: r =>
      if is_digit c || (code c =? 95) then
        let '(g, rest) := span_group r in (c :: g, rest)
      else ([], l)
  | [] => ([], [])
  end.

(** [digitpart ::= digit (["_"] digit)*]: the digits of a well-formed
    group, underscores removed.  [after_digit] tells whether the previous
    character was a digit. *)
Fixpoint group_digits (after_digit : bool) (l : list ascii) : option (list ascii) :=
  match l with
  | [] => if after_digit then Some [] else None
  | c :: r =>
      if is_digit c then option_map (cons c) (group_digits true r)
      else if after_digit then group_digits false r
      else None
  end.

Definition digits_val (l : list ascii) : Z :=
  fold_left (fun acc c => 10 * acc + digit_val c) l 0.

Definition split_sign (l : list ascii) : bool * list ascii :=
  match l with
  | c :: r =>
      if code c =? 45 then (true, r)
      else if code c =? 43 then (false, r)
      else (false, l)
  | [] => (false, [])
  end.

Definition apply_sign (neg : bool) (z : Z) : Z := if neg then - z else z.

(** [int(s)] for a string, base ten: surrounding white space, an optional
    sign, then a digit group.  [None] stands for [ValueError]. *)
Definition int_of_string (s : string) : option Z :=
  let '(neg, body) := split_sign (strip (chars s)) in
  match group_digits false body with
  | Some ds => Some (apply_sign neg (digits_val ds))
  | None => None
  end.

(** [float(s)] for a string holding a finite decimal literal:
    [[sign] ([digitpart] "." digitpart | digitpart ["."]) [exponent]].
    [None] stands for [ValueError].  The spellings of infinity and NaN have
    no counterpart in [Q] and are not recognised. *)
Definition exponent_of (l : list ascii) : option Z :=
  match l with
  | [] => Some 0
  | c :: r =>
      if (code c =? 101) || (code c =? 69) then
        let '(neg, body) := split_sign r in
        match group_digits false body with
        | Some ds => Some (apply_sign neg (digits_val ds))
        | None => None
        end
      else None
  end.

Definition scale10 (m e : Z) : Q :=
  if 0 <=? e then inject_Z (m * 10 ^ e)
  else Qred (Qmake m (Z.to_pos (10 ^ (- e)))).

Definition float_of_string (s : string) : option Q :=
  let '(neg, body) := split_sign (strip (chars s)) in
  let '(ip, rest1) := span_group body in
  let '(dot, fp, rest2) :=
    match rest1 with
    | c :: r => if code c =? 46 then let '(g, r') := span_group r in (true, g, r')
                else (false, [], rest1)
    | [] => (false, [], [])
    end in
  let mantissa :=
    match ip, fp with
    | [], [] => None
    | [], _ => if dot then group_digits false fp else None
    | _, [] => group_digits false ip
    | _, _ =>
        match group_digits false ip, group_digits false fp with
        | Some a, Some b => Some (a ++ b)%list
        | _, _ => None
        end
    end in
  let nfrac :=
    match group_digits false fp with
    | Some b => Z.of_nat (length b)
    | None => 0
    end in
  match mantissa, exponent_of rest2 with
  | Some ds, Some e => Some (scale10 (apply_sign neg (digits_val ds)) (e - nfrac))
  | _, _ => None
  end.

(** *** Numbers *)

(** [int(x)] for a float: truncation toward zero. *)
Definition trunc (q : Q) : Z := Z.quot (Qnum q) (Z.pos (Qden q)).

(** [round(x)]: to the nearest integer, ties to the even one. *)
Definition round_half_even (q : Q) : Z :=
  let f := Qfloor q in
  let r := (q - inject_Z f)%Q in
  match (r ?= 1 # 2)%Q with
  | Lt => f
  | Gt => f + 1
  | Eq => if Z.even f then f else f + 1
  end.

(** [x ** k] for an integer exponent; zero to a negative power raises. *)
Definition pow (x : Q) (k : Z) : outcome Q :=
  if (k <? 0) && (Qnum x =? 0) then Raise ZeroDivisionError
  else Ok (Qpower x k).

(** [int(v)] by the type of [v]. *)
Definition int (v : value) : outcome Z :=
  match v with
  | VInt z => Ok z
  | VFloat q => Ok (trunc q)
  | VStr s =>
      match int_of_string s with
      | Some z => Ok z
      | None => Raise ValueError
      end
  | VNone => Raise TypeError
  end.

(** *** Formatting *)

Fixpoint drop_zeros (l : list ascii) : list ascii :=
  match l with
  | c :: r => if code c =? 48 then drop_zeros r else l
  | [] => []
  end.

Definition zeros (n : Z) : list ascii := repeat "0"%char (Z.to_nat n).

Definition width (z : Z) : Z := Z.of_nat (length (chars (pretty z))).

(** [repr(x)] for a finite float, as the f-strings of the class use it:
    the significant digits of the decimal expansion (seventeen at most),
    in positional notation when the decimal exponent is between -4 and 15
    and in exponent notation otherwise. *)
Definition float_repr (q : Q) : string :=
  let a := Z.abs (Qnum q) in
  let d := Z.pos (Qden q) in
  if a =? 0 then "0.0"%string else
  let e10 :=
    if d <=? a then width (a / d) - 1
    else let l := width d - width a in
         if d <=? a * 10 ^ l then - l else - (l + 1) in
  let sig :=
    if e10 <=? 16 then (a * 10 ^ (16 - e10)) / d
    else a / (d * 10 ^ (e10 - 16)) in
  let ds := rev (drop_zeros (rev (chars (pretty sig)))) in
  let body :=
    if (16 <=? e10) || (e10 <? -4) then
      (firstn 1 ds
       ++ (match skipn 1 ds with [] => [] | r => "."%char :: r end)
       ++ "e"%char :: (if e10 <? 0 then "-"%char else "+"%char)
       :: (if Z.abs e10 <? 10 then ["0"%char] else [])
       ++ chars (pretty (Z.abs e10)))%list
    else if 0 <=? e10 then
      (firstn (Z.to_nat (e10 + 1)) (ds ++ zeros (e10 + 1))
       ++ "."%char
       :: (match skipn (Z.to_nat (e10 + 1)) ds with [] => ["0"%char] | r => r end))%list
    else
      ("0"%char :: "."%char :: zeros (- e10 - 1) ++ ds)%list in
  str_of ((if Qnum q <? 0 then ["-"%char] else []) ++ body)%list.

(** [str(v)], the text an f-string puts in place of [{v}]. *)
Definition str (v : value) : string :=
  match v with
  | VNone => "None"
  | VInt z => pretty z
  | VFloat q => float_repr q
  | VStr s => s
  end.

End Py.

(** ** The resolver: [class SnakemakeResourcesManager] *)

Module Resources.
Import Py.

(** *** State *)

(** A dictionary of dictionaries, as the resource definitions are. *)
Abbreviation ddict := (gmap string (gmap string value)).

Definition loc : Type := nat.

(** One value of [self.resources].  The constructor makes [self.resources]
    a [defaultdict] whose missing keys are filled with a
    [defaultdict(int)]; line 67 would store a plain [dict] instead.
    [auto] tells the two apart: a [defaultdict(int)] answers a missing key
    with [0] and stores it, a plain [dict] raises [KeyError]. *)
Record entry : Type := Entry {
  auto : bool;
  items : gmap string value
}.

Record manager : Type := Manager {
  _default_str : string;
  _threads_str : string;
  _memory_str : string;
  _runtime_str : string;
  mem_attempt_multiplier : Q;
  runtime_attempt_multiplier : Q;
  defined_resources : loc;
  presets : option ddict;
  resources : gmap string entry
}.

Record world : Type := World {
  self : manager;
  heap : gmap loc ddict;
  stdout : list string
}.

(** *** Methods as state and exception passing *)

Definition M (A : Type) : Type := world -> outcome A * world.

Definition ret {A} (a : A) : M A := fun w => (Ok a, w).

Definition raise {A} (e : exn) : M A := fun w => (Raise e, w).

Definition bind {A B} (m : M A) (k : A -> M B) : M B :=
  fun w =>
    match m w with
    | (Ok a, w') => k a w'
    | (Raise e, w') => (Raise e, w')
    end.

Notation "x <- c1 ;; c2" := (bind c1 (fun x => c2))
  (at level 100, c1 at next level, right associativity).
Notation "c1 ;; c2" := (bind c1 (fun _ => c2))
  (at level 100, right associativity).

Definition lift {A} (o : outcome A) : M A := fun w => (o, w).

Definition exn_eqb (a b : exn) : bool :=
  match a, b with
  | KeyError, KeyError
  | ValueError, ValueError
  | TypeError, TypeError
  | NameError, NameError
  | IndexError, IndexError
  | AttributeError, AttributeError
  | ZeroDivisionError, ZeroDivisionError => true
  | _, _ => false
  end.

(** [try: body / except E: handler]. *)
Definition try_except {A} (body : M A) (E : exn) (handler : M A) : M A :=
  fun w =>
    match body w with
    | (Raise e, w') => if exn_eqb e E then handler w' else (Raise e, w')
    | r => r
    end.

Fixpoint for_each {A} (l : list A) (body : A -> M unit) : M unit :=
  match l with
  | [] => ret tt
  | x :: r => body x ;; for_each r body
  end.

Definition get_self : M manager := fun w => (Ok (self w), w).

Definition print (line : string) : M unit :=
  fun w => (Ok tt, World (self w) (heap w) (stdout w ++ [line])).

Definition with_resources (r : gmap string entry) (s : manager) : manager :=
  Manager (_default_str s) (_threads_str s) (_memory_str s) (_runtime_str s)
          (mem_attempt_multiplier s) (runtime_attempt_multiplier s)
          (defined_resources s) (presets s) r.

Definition put_resources (r : gmap string entry) : M unit :=
  fun w => (Ok tt, World (with_resources r (self w)) (heap w) (stdout w)).

(** The dictionary [self.defined_resources] points to. *)
Definition defined (w : world) : ddict :=
  default ∅ (heap w !! defined_resources (self w)).

(** [d[k1][k2]] on plain dictionaries. *)
Definition getitem2 (d : ddict) (k1 k2 : string) : M value :=
  match d !! k1 with
  | None => raise KeyError
  | Some inner =>
      match inner !! k2 with
      | None => raise KeyError
      | Some v => ret v
      end
  end.

(** [self.defined_resources[rule][resource]]. *)
Definition defined_getitem (rule resource : string) : M value :=
  fun w => getitem2 (defined w) rule resource w.

(** [self.presets[resource][name]]; [self.presets] may be [None], and a key
    that is not a string is not in a table keyed by strings. *)
Definition presets_getitem (resource : string) (name : value) : M value :=
  s <- get_self ;;
  match presets s with
  | None => raise TypeError
  | Some p =>
      match name with
      | VStr n => getitem2 p resource n
      | _ => raise KeyError
      end
  end.

(** [self.resources[rule]]: the outer [defaultdict] creates and stores a
    [defaultdict(int)] for a missing rule. *)
Definition resources_outer (rule : string) : M entry :=
  s <- get_self ;;
  match resources s !! rule with
  | Some e => ret e
  | None =>
      put_resources (<[rule := Entry true ∅]> (resources s)) ;;
      ret (Entry true ∅)
  end.

(** [self.resources[rule][key]] read. *)
Definition resources_getitem (rule key : string) : M value :=
  e <- resources_outer rule ;;
  match items e !! key with
  | Some v => ret v
  | None =>
      if auto e then
        s <- get_self ;;
        put_resources (<[rule := Entry true (<[key := VInt 0]> (items e))]> (resources s)) ;;
        ret (VInt 0)
      else raise KeyError
  end.

(** [self.resources[rule][key] = v]. *)
Definition resources_setitem (rule key : string) (v : value) : M unit :=
  e <- resources_outer rule ;;
  s <- get_self ;;
  put_resources (<[rule := Entry (auto e) (<[key := v]> (items e))]> (resources s)).

(** *** Construction *)

(** The class attribute [default_resources]. *)
Definition default_resources : gmap string value :=
  <["runtime_s" := VInt 3600]> (<["mem_mb" := VInt 2000]> (<["threads" := VInt 1]> ∅)).

Definition class_default (key : string) : value :=
  default VNone (default_resources !! key).

(** The arguments of [__init__].  [resources], [presets] and [override] are
    [None] or a reference to a dictionary of the caller. *)
Record init_args : Type := InitArgs {
  arg_resources : option loc;
  arg_presets : option loc;
  arg_override : option loc;
  arg_mem_attempt_multiplier : Q;
  arg_runtime_attempt_multiplier : Q;
  arg_default_str : string;
  arg_threads_str : string;
  arg_memory_str : string;
  arg_runtime_str : string
}.

(** The defaults of the signature. *)
Definition default_args : init_args :=
  InitArgs None None None (3 # 2) 1 "default" "threads" "mem_mb" "runtime_s".

(** The entry lines 36-38 build for the [default] rule. *)
Definition injected_default (a : init_args) : gmap string value :=
  <[arg_runtime_str a := class_default "runtime_s"]>
    (<[arg_memory_str a := class_default "mem_mb"]>
       (<[arg_threads_str a := class_default "threads"]> ∅)).

(** [__init__] (lines 18-39), run on the caller's heap [h].  Line 29 stores
    the reference it was given; line 34 allocates a new dictionary when it
    was given [None]; line 36 writes through the reference.  Line 30 sets
    [self.presets] to [None]; [override] is not read. *)
Definition __init__ (a : init_args) (h : gmap loc ddict) (out : list string) : world :=
  let '(l, h1) :=
    match arg_resources a with
    | Some l => (l, h)
    | None => let l := fresh (dom h) in (l, <[l := ∅]> h)
    end in
  let d : ddict := default ∅ (h1 !! l) in
  let h2 :=
    match d !! arg_default_str a with
    | Some _ => h1
    | None => <[l := <[arg_default_str a := injected_default a]> d]> h1
    end in
  World (Manager (arg_default_str a) (arg_threads_str a) (arg_memory_str a)
                 (arg_runtime_str a) (arg_mem_attempt_multiplier a)
                 (arg_runtime_attempt_multiplier a) l None ∅)
        h2 out.

(** *** [get_resource_value] (lines 41-60) *)

Definition msg_not_a_preset (v : value) (resource : string) : string :=
  "Value " +:+ str v +:+ " for resource " +:+ resource
  +:+ " is neither a number nor a preset.".

Definition msg_using_default (resource rule : string) (v : value) : string :=
  "Could not find " +:+ resource +:+ " specification for rule " +:+ rule
  +:+ ". Using default (" +:+ str v +:+ ")".

(** The method has no [return] statement: it answers [None]. *)
Definition get_resource_value (rule resource : string) : M value :=
  s <- get_self ;;
  value <-
    try_except
      (value <- defined_getitem rule resource ;;
       try_except
         (z <- lift (int value) ;; ret (VInt z))
         ValueError
         (try_except
            (presets_getitem resource value)
            ValueError
            (print (msg_not_a_preset value resource) ;; raise ValueError)))
      KeyError
      (value <- defined_getitem (_default_str s) resource ;;
       print (msg_using_default resource rule value) ;;
       ret value) ;;
  resources_setitem rule resource value ;;
  ret VNone.

(** *** [get_threads] (lines 86-94) *)

Definition get_threads (rule : string) : M value :=
  s <- get_self ;;
  try_except
    (resources_getitem rule (_threads_str s))
    KeyError
    (resources_getitem (_default_str s) (_threads_str s)).

(** *** [get_mem] (lines 96-112) *)

(** [int(x * (self.mem_attempt_multiplier ** (attempt - 1)))]. *)
Definition scale_mem (x : Q) (attempt : Z) : M value :=
  s <- get_self ;;
  f <- lift (pow (mem_attempt_multiplier s) (attempt - 1)) ;;
  ret (VInt (trunc (x * f))).

Definition is_size_suffix (c : ascii) : bool :=
  (code c =? 71) || (code c =? 77) || (code c =? 75).

Definition get_mem (rule : string) (attempt : Z) : M value :=
  s <- get_self ;;
  mem_mb <-
    try_except
      (resources_getitem rule (_memory_str s))
      KeyError
      (resources_getitem (_default_str s) (_memory_str s)) ;;
  match mem_mb with
  | VInt z => scale_mem (inject_Z z) attempt
  | VFloat q => scale_mem q attempt
  | VStr t =>
      if isdigit t then
        z <- lift (int (VStr t)) ;;
        scale_mem (inject_Z z) attempt
      else
        c <- lift (last_char t) ;;
        if is_size_suffix c then
          x <- lift (match float_of_string (but_last t) with
                     | Some x => Ok x
                     | None => Raise ValueError
                     end) ;;
          f <- lift (pow (mem_attempt_multiplier s) (attempt - 1)) ;;
          ret (VStr (float_repr (x * f) +:+ String c ""))
        else ret mem_mb
  | VNone => raise AttributeError
  end.

(** *** [get_runtime] (lines 114-133) *)

Definition msg_invalid_runtime (rule : string) (runtime : value) : string :=
  "Invalid runtime format for rule <" +:+ rule +:+ ">: <" +:+ str runtime +:+ ">".

(** [d, h, m, s = (int(f) for f in fields)]: a field that is not an
    integer, fewer than four fields and more than four fields all raise
    [ValueError]. *)
Definition unpack4 (fields : list string) : outcome (Z * Z * Z * Z) :=
  match map int_of_string fields with
  | [Some d; Some h; Some m; Some s] => Ok (d, h, m, s)
  | _ => Raise ValueError
  end.

Definition seconds (f : Z * Z * Z * Z) : Z :=
  let '(d, h, m, s) := f in
  ((((d * 24) + h) * 60) + m) * 60 + s.

(** [1 + (attempt - 1) / 2], a true division. *)
Definition attempt_factor (attempt : Z) : Q :=
  (1 + inject_Z (attempt - 1) / 2)%Q.

Definition get_runtime (rule : string) (attempt : Z) : M value :=
  s <- get_self ;;
  runtime <-
    try_except
      (resources_getitem rule (_runtime_str s))
      KeyError
      (resources_getitem (_default_str s) (_runtime_str s)) ;;
  time <-
    match runtime with
    | VInt z => ret z
    | VStr t =>
        try_except
          (f <- lift (unpack4 (re_split t)) ;; ret (seconds f))
          ValueError
          (print (msg_invalid_runtime rule runtime) ;; ret 3600)
    | VFloat _ | VNone => raise TypeError
    end ;;
  ret (VInt (trunc (inject_Z time * attempt_factor attempt))).

(** *** [allocate_resources] (lines 62-84) *)

(** The method calls [get_resource_value] as a free function and reads
    [resources_info] and [presets] as free variables.  A free name is looked
    up among the globals of the module; the model takes them as a record, a
    missing one being [None], so that the whole body can be written down.
    The rules of line 70 are visited in the order of the keys. *)
Record globals : Type := Globals {
  g_get_resource_value : option (list value -> M value);
  g_resources_info : option (gmap string (list (string * list (string * value))));
  g_presets : option value
}.

(** The module binds [collections], [re], [yaml] and the class, and none of
    the three names. *)
Definition module_globals : globals := Globals None None None.

Definition load_global {A} (x : option A) : M A :=
  match x with
  | Some a => ret a
  | None => raise NameError
  end.

Definition msg_invalid_override (resource rule : string) : string :=
  "Invalid resource <" +:+ resource +:+ "> or rule name <" +:+ rule
  +:+ "> in resources section of the config file".

Definition allocate_resources (g : globals) : M value :=
  s <- get_self ;;
  f <- load_global (g_get_resource_value g) ;;
  t <- f [VStr (_default_str s); VStr (_threads_str s)] ;;
  m <- f [VStr (_default_str s); VStr (_memory_str s)] ;;
  r <- f [VStr (_default_str s); VStr (_runtime_str s)] ;;
  s1 <- get_self ;;
  put_resources
    (<[_default_str s :=
         Entry false (<[_runtime_str s := r]>
                        (<[_memory_str s := m]> (<[_threads_str s := t]> ∅)))]>
       (resources s1)) ;;
  rules <- (fun w => (Ok (map fst (map_to_list (defined w))), w)) ;;
  for_each rules (fun rule =>
    if bool_decide (rule = _default_str s) then ret tt
    else
      get_resource_value rule (_threads_str s) ;;
      get_resource_value rule (_memory_str s) ;;
      get_resource_value rule (_runtime_str s) ;;
      ret tt) ;;
  info <- load_global (g_resources_info g) ;;
  override <- lift (match info !! "override" with
                    | Some o => Ok o
                    | None => Raise KeyError
                    end) ;;
  for_each override (fun '(rule, rs) =>
    for_each rs (fun '(resource, value) =>
      try_except
        (f <- load_global (g_get_resource_value g) ;;
         p <- load_global (g_presets g) ;;
         v <- f [VStr resource; value; p] ;;
         resources_setitem rule resource v)
        KeyError
        (print (msg_invalid_override resource rule)))) ;;
  ret VNone.

End Resources.

(** ** Vocabulary of the properties *)

Module Scenario.
Import Py Resources.

(** The value the cache [self.resources] holds for a rule and a key. *)
Definition resolved (w : world) (rule key : string) : option value :=
  match resources (self w) !! rule with
  | Some e => items e !! key
  | None => None
  end.

(** The world after a call, and the answer of a call. *)
Definition after {A} (m : M A) (w : world) : world := snd (m w).

Definition answer {A} (m : M A) (w : world) : outcome A := fst (m w).

(** The world in which [msgs] have been printed. *)
Definition logged (msgs : list string) (w : world) : world :=
  World (self w) (heap w) (stdout w ++ msgs).

(** *** What [get_resource_value] computes, as a function of what it reads *)

Definition lookup2 (d : ddict) (k1 k2 : string) : option value :=
  match d !! k1 with
  | Some inner => inner !! k2
  | None => None
  end.

Definition fallback (d : ddict) (dflt rule resource : string)
  : outcome value * list string :=
  match lookup2 d dflt resource with
  | Some v => (Ok v, [msg_using_default resource rule v])
  | None => (Raise KeyError, [])
  end.

Definition resolution (d : ddict) (p : option ddict) (dflt rule resource : string)
  : outcome value * list string :=
  match lookup2 d rule resource with
  | None => fallback d dflt rule resource
  | Some VNone => (Raise TypeError, [])
  | Some (VInt z) => (Ok (VInt z), [])
  | Some (VFloat q) => (Ok (VInt (trunc q)), [])
  | Some (VStr n) =>
      match int_of_string n, p with
      | Some z, _ => (Ok (VInt z), [])
      | None, None => (Raise TypeError, [])
      | None, Some t =>
          match lookup2 t resource n with
          | Some x => (Ok x, [])
          | None => fallback d dflt rule resource
          end
      end
  end.

Definition store (rule key : string) (v : value) (r : gmap string entry)
  : gmap string entry :=
  match r !! rule with
  | Some e => <[rule := Entry (auto e) (<[key := v]> (items e))]> r
  | None => <[rule := Entry true (<[key := v]> ∅)]> r
  end.

(** *** Readings of the specification *)

(** The runtime values [get_runtime] accepts, in seconds: an integer, or a
    string of exactly four integer fields, days, hours, minutes, seconds. *)
Definition runtime_seconds (v : value) : option Z :=
  match v with
  | VInt z => Some z
  | VStr t =>
      match map int_of_string (re_split t) with
      | [Some d; Some h; Some m; Some s] => Some (d * 86400 + h * 3600 + m * 60 + s)
      | _ => None
      end
  | _ => None
  end.



(** A memory value that is a number: an [int], a [float], or a string of
    digits. *)
Definition numeric (v : value) : option Q :=
  match v with
  | VInt z => Some (inject_Z z)
  | VFloat q => Some q
  | VStr t => if isdigit t then option_map inject_Z (int_of_string t) else None
  | VNone => None
  end.

(** *** Constructor arguments and callers' heaps *)

Definition with_arg_presets (p : option loc) (a : init_args) : init_args :=
  InitArgs (arg_resources a) p (arg_override a) (arg_mem_attempt_multiplier a)
           (arg_runtime_attempt_multiplier a) (arg_default_str a) (arg_threads_str a)
           (arg_memory_str a) (arg_runtime_str a).

(** The definitions [d] once [__init__] has made sure of the default rule. *)
Definition with_default (a : init_args) (d : ddict) : ddict :=
  match d !! arg_default_str a with
  | Some _ => d
  | None => <[arg_default_str a := injected_default a]> d
  end.

(** [SnakemakeResourcesManager(resources=<object 0>, presets=p)] with the
    other arguments left to their defaults. *)
Definition args_on (p : option loc) : init_args :=
  InitArgs (Some 0%nat) p None (3 # 2) 1 "default" "threads" "mem_mb" "runtime_s".

(** A caller's heap holding one dictionary of definitions at address 0. *)
Definition heap_of (d : ddict) : gmap loc ddict := {[ 0%nat := d ]}.

(** A manager built on definitions [d] in which [rule] has been resolved
    for [key]. *)
Definition resolved_world (d : ddict) (rule key : string) : world :=
  after (get_resource_value rule key) (__init__ (args_on None) (heap_of d) []).

(** Definitions made of a default rule only. *)
Definition defs_default (mem runtime : value) : ddict :=
  {[ "default" := {[ "threads" := VInt 1; "mem_mb" := mem; "runtime_s" := runtime ]} ]}.

(** [{'r': {'mem_mb': 'big'}}] and the presets [{'mem_mb': {'small': 1000}}]. *)
Definition defs_preset : ddict := {[ "r" := {[ "mem_mb" := VStr "big" ]} ]}.
Definition table_preset : ddict := {[ "mem_mb" := {[ "small" := VInt 1000 ]} ]}.
Definition world_preset : world :=
  __init__ (args_on (Some 1%nat)) (<[1%nat := table_preset]> (heap_of defs_preset)) [].

(** [{'a': {'threads': 4}}]. *)
Definition defs_cache : ddict := {[ "a" := {[ "threads" := VInt 4 ]} ]}.
Definition world_cache : world := __init__ (args_on None) (heap_of defs_cache) [].


Definition world_4G : world :=
  resolved_world (defs_default (VStr "4G") (VInt 3600)) "r" "mem_mb".

End Scenario.

(** ** Helpers of the workflow scripts ([src/anguis/python_utils.py]) *)

Module Utils.
Import Py.

(** *** Strings *)

Definition newline : ascii := ascii_of_nat 10.

(** [s.find(c)] when [c] occurs in [s]; [None] when it does not (Python
    answers -1 then, and [c in s] is false). *)
Fixpoint str_find (c : ascii) (s : string) : option nat :=
  match s with
  | EmptyString => None
  | String a r => if Ascii.eqb a c then Some 0%nat else option_map S (str_find c r)
  end.

(** [s[n:]]. *)
Fixpoint str_from (n : nat) (s : string) : string :=
  match n, s with
  | O, _ => s
  | S m, String _ r => str_from m r
  | S _, EmptyString => EmptyString
  end.

(** The number of occurrences of [c] in [s]. *)
Fixpoint count_char (c : ascii) (s : string) : nat :=
  match s with
  | EmptyString => O
  | String a r => if Ascii.eqb a c then S (count_char c r) else count_char c r
  end.

(** *** [class LoggerWriter] (lines 8-32) *)

Module LoggerWriter.

(** The writer: the records its logger has been handed so far, as pairs of
    a level and a text, the level it logs at, and the text it holds back. *)
Record state : Type := State {
  logger : list (Z * string);
  level : Z;
  _msg : string
}.

(** [LoggerWriter(logger, level)] on a logger that has been handed
    [records] so far. *)
Definition __init__ (records : list (Z * string)) (lvl : Z) : state :=
  State records lvl "".

(** [f'(PYTHON: {__name__}.py)  '], [name] being the name the module was
    imported under. *)
Definition tag (name : string) : string := "(PYTHON: " +:+ name +:+ ".py)  ".

(** One turn of the loop of lines 23-26, taken when the text held back has
    its first newline at [pos]: the record is made of the whole text but
    its last character ([self._msg[:-1]]). *)
Definition turn (name : string) (pos : nat) (lw : state) : state :=
  State (logger lw ++ [(level lw, tag name +:+ but_last (_msg lw))])
        (level lw)
        (str_from (S pos) (_msg lw)).

(** The loop, with a bound on the number of turns; [None] when the bound is
    reached with a newline still held back. *)
Fixpoint drain (turns : nat) (name : string) (lw : state) : option state :=
  match str_find newline (_msg lw) with
  | None => Some lw
  | Some pos =>
      match turns with
      | O => None
      | S n => drain n name (turn name pos lw)
      end
  end.

(** [write(message)].  Every turn drops a character at least, so the length
    of the text bounds the turns. *)
Definition write (name message : string) (lw : state) : option state :=
  let lw1 := State (logger lw) (level lw) (_msg lw +:+ message) in
  drain (String.length (_msg lw1)) name lw1.

(** [flush()] does nothing. *)
Definition flush (lw : state) : state := lw.

(** [rest] is what follows the last newline of [text], the whole of it when
    it has none. *)
Definition after_last_newline (text rest : string) : Prop :=
  str_find newline rest = None
  /\ (text = rest \/ exists pre, text = pre +:+ String newline rest).

End LoggerWriter.

(** *** [json_object_hook] (lines 102-118) *)

(** A float as [float(s)] can make it: finite, infinite or not a number. *)
Inductive pyfloat : Type :=
  | Finite (q : Q)
  | Infinite (negative : bool)
  | NaN.

Definition lower (c : ascii) : ascii :=
  if (65 <=? code c) && (code c <=? 90) then ascii_of_N (N_of_ascii c + 32) else c.

(** [float(s)]: the finite literals of [Py.float_of_string], and the
    spellings [inf], [infinity] and [nan] in any case, with an optional
    sign and surrounding white space. *)
Definition float (s : string) : option pyfloat :=
  match float_of_string s with
  | Some q => Some (Finite q)
  | None =>
      let '(neg, body) := split_sign (strip (chars s)) in
      let word := str_of (map lower body) in
      if String.eqb word "inf" || String.eqb word "infinity" then Some (Infinite neg)
      else if String.eqb word "nan" then Some NaN
      else None
  end.

(** The values a decoded JSON object holds. *)
#[warnings="-register-all"]
Inductive json : Type :=
  | JNull
  | JBool (b : bool)
  | JInt (z : Z)
  | JFloat (f : pyfloat)
  | JStr (s : string)
  | JArray (l : list json)
  | JObject (o : list (string * json)).

(** The body of the loop of line 107: what is stored under the key of [v].
    The limit recent interpreters put on the number of digits [int] reads
    is not modelled. *)
Definition converted (v : json) : json :=
  match v with
  | JStr s =>
      match int_of_string s with
      | Some z => JInt z
      | None =>
          match float s with
          | Some f => JFloat f
          | None => v
          end
      end
  | _ => v
  end.

Definition json_object_hook (obj : gmap string json) : gmap string json :=
  converted <$> obj.

(** *** [flatten] (lines 148-157) *)

(** An element of an iterable: an iterable itself, or anything else, a
    [str] or [bytes] counting as anything else. *)
#[warnings="-register-all"]
Inductive element (A : Type) : Type :=
  | Atom (a : A)
  | Iterable (l : list (element A)).
Arguments Atom {A} a.
Arguments Iterable {A} l.

(** What the body of the loop yields for one element: what [flatten] yields
    for it when it is an iterable, the element itself otherwise. *)
Fixpoint yielded {A} (e : element A) : list A :=
  match e with
  | Iterable l => flat_map yielded l
  | Atom a => [a]
  end.

(** What the generator yields, in order, once it is run to its end.  The
    recursion limit of the interpreter is not modelled. *)
Definition flatten {A} (iterable : list (element A)) : list A :=
  flat_map yielded iterable.

End Utils.

(** ** The life of a manager *)

Module Lifecycle.
Import Py Resources Scenario.

(** One call of a public method. *)
Inductive call : Type :=
  | CallResolve (rule resource : string)
  | CallThreads (rule : string)
  | CallMem (rule : string) (attempt : Z)
  | CallRuntime (rule : string) (attempt : Z)
  | CallAllocate.

Definition run (c : call) : M value :=
  match c with
  | CallResolve rule resource => get_resource_value rule resource
  | CallThreads rule => get_threads rule
  | CallMem rule attempt => get_mem rule attempt
  | CallRuntime rule attempt => get_runtime rule attempt
  | CallAllocate => allocate_resources module_globals
  end.

(** The worlds a program can be in: it constructs the manager, calls its
    methods, and between the calls writes to its own dictionaries and to
    standard output as it likes. *)
Inductive reachable : world -> Prop :=
  | reach_init a h out : reachable (__init__ a h out)
  | reach_call c w : reachable w -> reachable (after (run c) w)
  | reach_caller w h out : reachable w -> reachable (World (self w) h out).

(** Every value of the cache is a [defaultdict(int)]. *)
Definition cache_auto (s : manager) : Prop :=
  forall rule e, resources s !! rule = Some e -> auto e = true.

(** The manager without its cache: what the constructor sets for good. *)
Definition settings (s : manager) : manager := with_resources ∅ s.

Definition with_runtime_attempt_multiplier (m : Q) (w : world) : world :=
  World (Manager (_default_str (self w)) (_threads_str (self w)) (_memory_str (self w))
                 (_runtime_str (self w)) (mem_attempt_multiplier (self w)) m
                 (defined_resources (self w)) (presets (self w)) (resources (self w)))
        (heap w) (stdout w).

(** A computation keeps [P] when the world it leaves satisfies [P] whenever
    the world it starts from does. *)
Definition keeps (P : world -> Prop) {A} (m : M A) : Prop :=
  forall w, P w -> P (snd (m w)).

(** The presets are [None], the cache holds [defaultdict]s only, and the
    settings are those of [s0]. *)
Definition steady (s0 : manager) (w : world) : Prop :=
  presets (self w) = None /\ cache_auto (self w) /\ settings (self w) = settings s0.

End Lifecycle.

Import Py Resources Scenario.

#[local] Arguments resources_setitem : simpl never.
#[local] Arguments resources_getitem : simpl never.
#[local] Arguments getitem2 : simpl never.
#[local] Arguments msg_using_default : simpl never.
#[local] Arguments msg_not_a_preset : simpl never.
#[local] Arguments msg_invalid_runtime : simpl never.

(** ** The built-ins on the inputs the properties use *)

Example int_of_string_fields :
  map int_of_string ["1"; "02"; "30"; "00"; " 7 "; "-3"; "1_000"; ""; "bogus"; "4G"]
  = [Some 1; Some 2; Some 30; Some 0; Some 7; Some (-3); Some 1000; None; None; None].
Proof. reflexivity. Qed.

Example re_split_fields :
  re_split "1-02:30:00" = ["1"; "02"; "30"; "00"]
  /\ re_split "02:30:00" = ["02"; "30"; "00"]
  /\ re_split "bogus" = ["bogus"]
  /\ re_split "1--2" = ["1"; ""; "2"].
Proof. repeat split. Qed.

Example float_of_string_literals :
  map float_of_string ["4"; "4.5"; ".5"; "5."; "1e3"; "-2.25"; "."; ""; "x"]
  = [Some (4 # 1); Some (9 # 2); Some (1 # 2); Some (5 # 1); Some (1000 # 1);
     Some (-9 # 4); None; None; None]%Q.
Proof. reflexivity. Qed.

Example float_repr_values :
  map float_repr [6 # 1; 27 # 4; 1500 # 1; 1 # 10; -9 # 4; 0 # 1; 1 # 100000]%Q
  = ["6.0"; "6.75"; "1500.0"; "0.1"; "-2.25"; "0.0"; "1e-05"].
Proof. vm_compute. reflexivity. Qed.

Example rounding_and_truncation :
  trunc (27 # 4) = 6 /\ round_half_even (27 # 4) = 7
  /\ trunc (-27 # 4) = -6 /\ round_half_even (5 # 2) = 2.
Proof. repeat split. Qed.

(** ** Reading and writing the cache *)

Lemma resources_getitem_hit w rule key v :
  resolved w rule key = Some v -> resources_getitem rule key w = (Ok v, w).
Proof.
  unfold resolved, resources_getitem, resources_outer, bind, get_self.
  intros H. destruct (resources (self w) !! rule) as [e|]; [|discriminate].
  cbn. rewrite H. reflexivity.
Qed.

(** A rule the cache does not know is created on the spot and reads as 0:
    the [defaultdict] never raises [KeyError]. *)
Lemma resources_getitem_miss w rule key :
  resources (self w) !! rule = None ->
  resources_getitem rule key w =
    (Ok (VInt 0),
     World (with_resources
              (<[rule := Entry true (<[key := VInt 0]> ∅)]> (resources (self w)))
              (self w))
           (heap w) (stdout w)).
Proof.
  unfold resources_getitem, resources_outer, bind, get_self.
  intros H. rewrite H. cbn. rewrite lookup_empty. cbn.
  rewrite insert_insert_eq. reflexivity.
Qed.

Lemma resources_setitem_store rule key v w :
  resources_setitem rule key v w =
    (Ok tt, World (with_resources (store rule key v (resources (self w))) (self w))
              (heap w) (stdout w)).
Proof.
  unfold resources_setitem, resources_outer, bind, get_self, store.
  destruct (resources (self w) !! rule) as [e|]; cbn; [reflexivity|].
  rewrite insert_insert_eq. reflexivity.
Qed.

Lemma store_store rule key v r :
  store rule key v (store rule key v r) = store rule key v r.
Proof.
  unfold store. destruct (r !! rule) as [e|] eqn:Hr; rewrite lookup_insert_eq; cbn;
    rewrite !insert_insert_eq; reflexivity.
Qed.

Lemma getitem2_lookup2 d k1 k2 w :
  getitem2 d k1 k2 w =
    (match lookup2 d k1 k2 with Some v => Ok v | None => Raise KeyError end, w).
Proof.
  unfold getitem2, lookup2. destruct (d !! k1) as [i|]; [|reflexivity].
  destruct (i !! k2); reflexivity.
Qed.

Lemma logged_nil w : logged [] w = w.
Proof. destruct w as [s h o]. unfold logged. cbn. rewrite app_nil_r. reflexivity. Qed.

(** ** Construction *)

Lemma init_resources a h out : resources (self (__init__ a h out)) = ∅.
Proof. unfold __init__. destruct (arg_resources a); reflexivity. Qed.

Lemma init_presets a h out : presets (self (__init__ a h out)) = None.
Proof. unfold __init__. destruct (arg_resources a); reflexivity. Qed.

Lemma defined_default_args h out :
  defined (__init__ default_args h out) = {[ "default" := default_resources ]}.
Proof.
  unfold defined, __init__. cbn.
  rewrite lookup_insert_eq. cbn. rewrite lookup_empty. cbn.
  rewrite lookup_insert_eq. reflexivity.
Qed.

Lemma init_heap_given a h out l d :
  arg_resources a = Some l -> h !! l = Some d ->
  heap (__init__ a h out) =
    match d !! arg_default_str a with
    | Some _ => h
    | None => <[l := <[arg_default_str a := injected_default a]> d]> h
    end.
Proof.
  intros Ha Hl. unfold __init__. rewrite Ha, Hl. cbn.
  destruct (d !! arg_default_str a); reflexivity.
Qed.

(** ** [get_resource_value] *)

Ltac stored :=
  unfold bind; rewrite ?resources_setitem_store; cbn; rewrite ?app_nil_r; reflexivity.

(** The method stores the resolution and prints its messages; when the
    resolution raises, only the messages are left. *)
Lemma get_resource_value_resolution rule resource w :
  get_resource_value rule resource w =
    match resolution (defined w) (presets (self w)) (_default_str (self w)) rule resource with
    | (Ok v, msgs) =>
        (Ok VNone,
         World (with_resources (store rule resource v (resources (self w))) (self w))
               (heap w) (stdout w ++ msgs))
    | (Raise e, msgs) => (Raise e, logged msgs w)
    end.
Proof.
  assert (Hfb :
    (let (o, w') :=
       (value <- defined_getitem (_default_str (self w)) resource ;;
        print (msg_using_default resource rule value) ;; ret value) w in
     match o with
     | Ok a => (resources_setitem rule resource a ;; ret VNone) w'
     | Raise e => (Raise e, w')
     end) =
    match fallback (defined w) (_default_str (self w)) rule resource with
    | (Ok v, msgs) =>
        (Ok VNone,
         World (with_resources (store rule resource v (resources (self w))) (self w))
               (heap w) (stdout w ++ msgs))
    | (Raise e, msgs) => (Raise e, logged msgs w)
    end).
  { unfold fallback, bind, defined_getitem. rewrite getitem2_lookup2.
    destruct (lookup2 (defined w) (_default_str (self w)) resource); cbn;
      rewrite ?logged_nil, ?resources_setitem_store; reflexivity. }
  unfold get_resource_value, resolution, bind at 1 2, get_self, try_except at 1.
  unfold defined_getitem at 1, bind at 1. rewrite getitem2_lookup2.
  destruct (lookup2 (defined w) rule resource) as [v|] eqn:Hv.
  2:{ cbn. unfold bind in Hfb |- *. exact Hfb. }
  destruct v as [|z|q|n].
  - cbn. rewrite logged_nil. reflexivity.
  - cbn. stored.
  - cbn. stored.
  - unfold try_except, bind, lift, int.
    destruct (int_of_string n) as [z|].
    + cbn. stored.
    + cbn. unfold presets_getitem, bind, get_self.
      destruct (presets (self w)) as [t|]; cbn.
      2:{ rewrite logged_nil. reflexivity. }
      rewrite getitem2_lookup2.
      destruct (lookup2 t resource n) as [x|]; cbn.
      * stored.
      * unfold bind in Hfb |- *. exact Hfb.
Qed.

(** Calling it again with the same arguments changes neither the manager
    nor the heap, and answers the same. *)
Lemma get_resource_value_idempotent w rule resource :
  let w1 := after (get_resource_value rule resource) w in
  let w2 := after (get_resource_value rule resource) w1 in
  self w2 = self w1 /\ heap w2 = heap w1
  /\ answer (get_resource_value rule resource) w1
     = answer (get_resource_value rule resource) w.
Proof.
  unfold after, answer. cbn zeta.
  rewrite (get_resource_value_resolution rule resource w).
  destruct (resolution (defined w) (presets (self w)) (_default_str (self w)) rule resource)
    as [[v|e] msgs] eqn:Hr; cbn [snd fst].
  - rewrite get_resource_value_resolution. unfold defined in *. cbn. rewrite Hr. cbn.
    unfold with_resources. cbn. rewrite store_store. auto.
  - rewrite get_resource_value_resolution. unfold defined in *. cbn. rewrite Hr. cbn. auto.
Qed.

(** It writes to the cache and to standard output only: the definitions,
    the presets attribute and the configured names are left alone. *)
Lemma get_resource_value_frame w rule resource :
  let w' := after (get_resource_value rule resource) w in
  heap w' = heap w
  /\ presets (self w') = presets (self w)
  /\ defined_resources (self w') = defined_resources (self w)
  /\ _default_str (self w') = _default_str (self w).
Proof.
  unfold after. cbn zeta. rewrite get_resource_value_resolution.
  destruct (resolution _ _ _ _ _) as [[v|e] msgs]; cbn; auto.
Qed.


(** With a presets table put in place by assignment, a name the table
    lacks is answered with the default: the [KeyError] reaches the outer
    handler. *)
Lemma get_resource_value_unknown_preset w rule resource t p v :
  presets (self w) = Some p ->
  lookup2 (defined w) rule resource = Some (VStr t) ->
  int_of_string t = None ->
  lookup2 p resource t = None ->
  lookup2 (defined w) (_default_str (self w)) resource = Some v ->
  answer (get_resource_value rule resource) w = Ok VNone
  /\ resolved (after (get_resource_value rule resource) w) rule resource = Some v.
Proof.
  intros Hp Hd Hi Ht Hv. unfold answer, after.
  rewrite get_resource_value_resolution. unfold resolution, fallback.
  rewrite Hd, Hi, Hp, Ht, Hv. cbn. split; [reflexivity|].
  unfold resolved, store. cbn.
  destruct (resources (self w) !! rule); rewrite lookup_insert_eq; cbn;
    apply lookup_insert_eq.
Qed.

Lemma get_resource_value_answers_None w rule resource :
  match answer (get_resource_value rule resource) w with
  | Ok v => v = VNone
  | Raise _ => True
  end.
Proof.
  unfold answer. rewrite get_resource_value_resolution.
  destruct (resolution _ _ _ _ _) as [[v|e] msgs]; cbn; [reflexivity | exact I].
Qed.

(** ** The getters on a rule the cache does not know *)

Lemma get_threads_miss w rule :
  resources (self w) !! rule = None ->
  answer (get_threads rule) w = Ok (VInt 0).
Proof.
  intros H. unfold answer, get_threads, bind, get_self, try_except.
  rewrite (resources_getitem_miss _ _ _ H). reflexivity.
Qed.

Lemma get_mem_miss w rule :
  resources (self w) !! rule = None ->
  answer (get_mem rule 1) w = Ok (VInt 0).
Proof.
  intros H. unfold answer, get_mem, bind, get_self, try_except.
  rewrite (resources_getitem_miss _ _ _ H). reflexivity.
Qed.

Lemma get_runtime_miss w rule :
  resources (self w) !! rule = None ->
  answer (get_runtime rule 1) w = Ok (VInt 0).
Proof.
  intros H. unfold answer, get_runtime, bind, get_self, try_except.
  rewrite (resources_getitem_miss _ _ _ H). reflexivity.
Qed.

(** ** [get_runtime] *)


Lemma unpack4_ok t total :
  runtime_seconds (VStr t) = Some total ->
  exists f, unpack4 (re_split t) = Ok f /\ seconds f = total.
Proof.
  unfold runtime_seconds, unpack4.
  destruct (map int_of_string (re_split t))
    as [|[d|] [|[h|] [|[m|] [|[s|] [|? ?]]]]]; try discriminate.
  intros [= <-]. eexists; split; [reflexivity | cbn; lia].
Qed.


Lemma get_runtime_accepts w rule attempt v t :
  resolved w rule (_runtime_str (self w)) = Some v ->
  runtime_seconds v = Some t ->
  get_runtime rule attempt w
  = (Ok (VInt (trunc (inject_Z t * attempt_factor attempt))), w).
Proof.
  intros Hr Hs. unfold get_runtime, bind, get_self, try_except.
  rewrite (resources_getitem_hit _ _ _ _ Hr).
  destruct v as [|z|q|s]; try discriminate.
  - injection Hs as <-. reflexivity.
  - destruct (unpack4_ok _ _ Hs) as (f & Hf & <-).
    unfold lift. rewrite Hf. reflexivity.
Qed.


(** ** [get_mem] *)

Lemma pow_attempt m attempt :
  1 <= attempt -> pow m (attempt - 1) = Ok (Qpower m (attempt - 1)).
Proof.
  intros H. unfold pow.
  replace (attempt - 1 <? 0) with false; [reflexivity|].
  symmetry. apply Z.ltb_ge. lia.
Qed.


Lemma get_mem_numeric w rule attempt v x :
  1 <= attempt ->
  resolved w rule (_memory_str (self w)) = Some v ->
  numeric v = Some x ->
  get_mem rule attempt w
  = (Ok (VInt (trunc (x * Qpower (mem_attempt_multiplier (self w)) (attempt - 1)))), w).
Proof.
  intros Ha Hr Hn. unfold get_mem, bind, get_self, try_except.
  rewrite (resources_getitem_hit _ _ _ _ Hr).
  destruct v as [|z|q|s]; cbn in Hn; try discriminate.
  - injection Hn as <-.
    unfold scale_mem, bind, get_self, lift. rewrite (pow_attempt _ _ Ha). reflexivity.
  - injection Hn as <-.
    unfold scale_mem, bind, get_self, lift. rewrite (pow_attempt _ _ Ha). reflexivity.
  - destruct (isdigit s); [|discriminate].
    unfold lift, int. destruct (int_of_string s) as [z|]; [|discriminate].
    injection Hn as <-.
    unfold scale_mem, bind, get_self, lift. rewrite (pow_attempt _ _ Ha). reflexivity.
Qed.

Lemma chars_snoc t c : chars (t +:+ String c "") = (chars t ++ [c])%list.
Proof.
  unfold chars. induction t as [|a t IH]; [reflexivity|].
  change (list_ascii_of_string (String a t +:+ String c ""))
    with (a :: list_ascii_of_string (t +:+ String c "")).
  rewrite IH. reflexivity.
Qed.

Lemma suffix_not_digit c : is_size_suffix c = true -> is_digit c = false.
Proof.
  unfold is_size_suffix, is_digit. intros H.
  apply orb_true_iff in H as [H|H]; [apply orb_true_iff in H as [H|H]|];
    apply Z.eqb_eq in H; rewrite H; reflexivity.
Qed.

Lemma isdigit_suffixed t c :
  is_size_suffix c = true -> isdigit (t +:+ String c "") = false.
Proof.
  intros H. unfold isdigit. rewrite chars_snoc.
  destruct (chars t ++ [c])%list eqn:E.
  - reflexivity.
  - rewrite <- E, forallb_app. cbn. rewrite (suffix_not_digit _ H).
    apply andb_false_r.
Qed.

Lemma last_char_snoc t c : last_char (t +:+ String c "") = Ok c.
Proof. unfold last_char. rewrite chars_snoc, rev_app_distr. reflexivity. Qed.

Lemma but_last_snoc t c : but_last (t +:+ String c "") = t.
Proof.
  unfold but_last. rewrite chars_snoc, removelast_last.
  apply string_of_list_ascii_of_string.
Qed.


(** ** The claims *)

(** C1.  A rule that is absent from the definitions and has never been
    resolved does not read as the default entry.  Whatever the constructor
    was given, right after construction [get_threads], [get_mem] at attempt
    1 and [get_runtime] at attempt 1 answer 0 for every rule, although under
    the default arguments the default entry holds 1 thread, 2000 MB and
    3600 s: the cache is a [defaultdict], so the lookups the getters guard
    with [except KeyError] never raise and the fallback is never taken. *)
Theorem C1_unresolved_rule_reads_zero :
  (forall (a : init_args) (h : gmap loc ddict) (out : list string) (rule : string),
     let w := __init__ a h out in
     answer (get_threads rule) w = Ok (VInt 0)
     /\ answer (get_mem rule 1) w = Ok (VInt 0)
     /\ answer (get_runtime rule 1) w = Ok (VInt 0))
  /\ (forall (h : gmap loc ddict) (out : list string),
        let w := __init__ default_args h out in
        lookup2 (defined w) "default" "threads" = Some (VInt 1)
        /\ lookup2 (defined w) "default" "mem_mb" = Some (VInt 2000)
        /\ lookup2 (defined w) "default" "runtime_s" = Some (VInt 3600)).
Proof.
  split.
  - intros a h out rule w.
    assert (Hm : resources (self w) !! rule = None).
    { unfold w. rewrite init_resources. apply lookup_empty. }
    split; [|split].
    + apply get_threads_miss, Hm.
    + apply get_mem_miss, Hm.
    + apply get_runtime_miss, Hm.
  - intros h out w. unfold w. rewrite defined_default_args. repeat split.
Qed.

(** C2.  On the manager built from [{'r': {'mem_mb': 'big'}}] and a presets
    table, [get_resource_value('r', 'mem_mb')] raises [TypeError] and prints
    nothing: the presets given to the constructor were not kept, the lookup
    subscripts [None], and the handler that prints the diagnostic waits for
    [ValueError]. *)
Theorem C2_preset_name_raises_TypeError_unlogged :
  get_resource_value "r" "mem_mb" world_preset = (Raise TypeError, world_preset)
  /\ stdout world_preset = [].
Proof. split; vm_compute; reflexivity. Qed.

(** C3.  [allocate_resources] raises [NameError] in every world and leaves
    the world as it was: its first statement calls [get_resource_value] as
    a free function, a name the module does not bind.  No override is ever
    applied. *)
Theorem C3_allocate_resources_raises_NameError (w : world) :
  allocate_resources module_globals w = (Raise NameError, w).
Proof. reflexivity. Qed.











(** C8.  [get_resource_value] never answers the resolved value: it has no
    [return] statement, so every call that does not raise answers [None].
    On [{'a': {'threads': 4}}] the call for [('a', 'threads')] answers
    [None] while the cache holds 4. *)
Theorem C8_get_resource_value_answers_None :
  (forall (w : world) (rule resource : string),
     match answer (get_resource_value rule resource) w with
     | Ok v => v = VNone
     | Raise _ => True
     end)
  /\ answer (get_resource_value "a" "threads") world_cache = Ok VNone
  /\ resolved (after (get_resource_value "a" "threads") world_cache) "a" "threads"
     = Some (VInt 4).
Proof.
  split; [apply get_resource_value_answers_None|].
  split; vm_compute; reflexivity.
Qed.

(** C9, as stated, fails: the constructor writes into the dictionary it was
    given.  Built on [{'a': {'threads': 4}}], which has no default rule, it
    leaves the caller's dictionary with a [default] key. *)
Lemma C9_caller_mapping_is_mutated :
  ~ (forall (a : init_args) (h : gmap loc ddict) (out : list string)
            (l : loc) (d : ddict),
       arg_resources a = Some l -> h !! l = Some d ->
       heap (__init__ a h out) !! l = Some d).
Proof.
  intros H.
  assert (Hl : heap_of defs_cache !! 0%nat = Some defs_cache)
    by (vm_compute; reflexivity).
  specialize (H (args_on None) (heap_of defs_cache) [] 0%nat defs_cache eq_refl Hl).
  rewrite (init_heap_given (args_on None) (heap_of defs_cache) [] 0%nat defs_cache
             eq_refl Hl) in H.
  assert (E : forall m1 m2 : ddict, Some m1 = Some m2 -> m1 !! "default" = m2 !! "default")
    by (intros m1 m2 [= ->]; reflexivity).
  apply E in H. cbn [args_on arg_default_str] in H.
  assert (Hn : defs_cache !! "default" = None) by (vm_compute; reflexivity).
  rewrite Hn, lookup_insert_eq in H. discriminate.
Qed.

(** C9, amended.  The constructor leaves the dictionary of definitions it
    was given unchanged when that dictionary has the default rule; when it
    has not, the constructor adds the default rule to it, with the class
    defaults, and changes nothing else in it.  Every other object of the
    caller, the presets among them, is unchanged. *)
Theorem C9_only_a_missing_default_is_added (a : init_args) (h : gmap loc ddict)
    (out : list string) (l : loc) (d : ddict) :
  arg_resources a = Some l -> h !! l = Some d ->
  heap (__init__ a h out) !! l = Some (with_default a d)
  /\ (forall l', l' <> l -> heap (__init__ a h out) !! l' = h !! l').
Proof.
  intros Ha Hl. rewrite (init_heap_given _ _ _ _ _ Ha Hl). unfold with_default.
  destruct (d !! arg_default_str a) eqn:Hd.
  - split; [exact Hl | reflexivity].
  - split; [apply lookup_insert_eq|].
    intros l' Hne. apply lookup_insert_ne. congruence.
Qed.

Lemma C9_witness :
  heap world_cache !! 0%nat = Some (with_default (args_on None) defs_cache)
  /\ (forall l', l' <> 0%nat -> heap world_cache !! l' = heap_of defs_cache !! l').
Proof.
  apply (C9_only_a_missing_default_is_added
           (args_on None) (heap_of defs_cache) [] 0%nat defs_cache);
    [reflexivity | vm_compute; reflexivity].
Defined.

(** C10.  Whatever is passed as [presets], the manager's [presets] attribute
    is [None] after construction, and the world the constructor leaves is
    the one it leaves when no presets are passed: nothing that runs later
    can tell whether presets were supplied. *)
Theorem C10_presets_argument_is_dropped (a : init_args) (p : option loc)
    (h : gmap loc ddict) (out : list string) :
  presets (self (__init__ (with_arg_presets p a) h out)) = None
  /\ __init__ (with_arg_presets p a) h out = __init__ (with_arg_presets None a) h out.
Proof. split; [apply init_presets | reflexivity]. Qed.

Import Utils Lifecycle.

(** ** Strings of digits *)







(** ** The manager over its life *)

Section keeps.
Context (P : world -> Prop).

Lemma keeps_ret {A} (a : A) : keeps P (ret a).
Proof. intros w H. exact H. Qed.

Lemma keeps_raise {A} e : keeps P (@raise A e).
Proof. intros w H. exact H. Qed.

Lemma keeps_lift {A} (o : outcome A) : keeps P (lift o).
Proof. intros w H. exact H. Qed.

Lemma keeps_get_self : keeps P get_self.
Proof. intros w H. exact H. Qed.

Lemma keeps_bind {A B} (m : M A) (k : A -> M B) :
  keeps P m -> (forall a, keeps P (k a)) -> keeps P (bind m k).
Proof.
  intros Hm Hk w H. unfold bind. specialize (Hm w H).
  destruct (m w) as [[a|e] w']; cbn in *; [apply Hk, Hm | exact Hm].
Qed.

Lemma keeps_try {A} (m h : M A) E :
  keeps P m -> keeps P h -> keeps P (try_except m E h).
Proof.
  intros Hm Hh w H. unfold try_except. specialize (Hm w H).
  destruct (m w) as [[a|e] w']; cbn in *; [exact Hm|].
  destruct (exn_eqb e E); [apply Hh, Hm | exact Hm].
Qed.

Lemma keeps_getitem2 d k1 k2 : keeps P (getitem2 d k1 k2).
Proof.
  intros w H. rewrite getitem2_lookup2. exact H.
Qed.

Lemma keeps_defined_getitem r k : keeps P (defined_getitem r k).
Proof. intros w H. unfold defined_getitem. apply keeps_getitem2, H. Qed.
End keeps.

Lemma steady_print s0 line : keeps (steady s0) (print line).
Proof. intros w H. exact H. Qed.

Lemma steady_put s0 r :
  (forall rule e, r !! rule = Some e -> auto e = true) ->
  keeps (steady s0) (put_resources r).
Proof.
  intros Hr w (Hp & Ha & Hs). split; [exact Hp|]. split; [exact Hr | exact Hs].
Qed.

Lemma store_auto rule key v r :
  (forall x e, r !! x = Some e -> auto e = true) ->
  forall x e, store rule key v r !! x = Some e -> auto e = true.
Proof.
  intros Hr x e. unfold store.
  destruct (r !! rule) as [e0|] eqn:E0;
    (destruct (decide (rule = x)) as [->|Hne];
     [rewrite lookup_insert_eq; intros [= <-]; cbn; eauto
     |rewrite lookup_insert_ne by exact Hne; apply Hr]).
Qed.

Lemma steady_resources_getitem s0 rule key : keeps (steady s0) (resources_getitem rule key).
Proof.
  intros w (Hp & Ha & Hs).
  unfold resources_getitem, resources_outer, bind, get_self.
  destruct (resources (self w) !! rule) as [e|] eqn:E; cbn.
  - destruct (items e !! key) eqn:K; cbn; [repeat split; assumption|].
    rewrite (Ha _ _ E). cbn. repeat split; try assumption.
    intros x e'. cbn.
    destruct (decide (rule = x)) as [->|Hne];
      [rewrite lookup_insert_eq; intros [= <-]; reflexivity
      |rewrite lookup_insert_ne by exact Hne; apply Ha].
  - rewrite lookup_empty. cbn. repeat split; try assumption.
    intros x e'. cbn. rewrite insert_insert_eq.
    destruct (decide (rule = x)) as [->|Hne];
      [rewrite lookup_insert_eq; intros [= <-]; reflexivity
      |rewrite lookup_insert_ne by exact Hne; apply Ha].
Qed.

Lemma steady_get_resource_value s0 rule resource :
  keeps (steady s0) (get_resource_value rule resource).
Proof.
  intros w (Hp & Ha & Hs). rewrite get_resource_value_resolution.
  destruct (resolution _ _ _ _ _) as [[v|e] msgs]; cbn.
  - repeat split; try assumption. intros x e. cbn. apply store_auto, Ha.
  - repeat split; assumption.
Qed.

Ltac keeps_steady :=
  repeat first
    [ apply keeps_ret | apply keeps_raise | apply keeps_lift | apply keeps_get_self
    | apply steady_print | apply steady_resources_getitem
    | apply keeps_try
    | apply keeps_bind; [|intros ?]
    | match goal with
      | |- keeps _ (match ?x with _ => _ end) => destruct x
      end ].

Lemma steady_get_threads s0 rule : keeps (steady s0) (get_threads rule).
Proof. unfold get_threads. keeps_steady. Qed.

Lemma steady_get_mem s0 rule attempt : keeps (steady s0) (get_mem rule attempt).
Proof. unfold get_mem, scale_mem. keeps_steady. Qed.

Lemma steady_get_runtime s0 rule attempt : keeps (steady s0) (get_runtime rule attempt).
Proof. unfold get_runtime. keeps_steady. Qed.

Lemma steady_run s0 c : keeps (steady s0) (run c).
Proof.
  destruct c; cbn [run].
  - apply steady_get_resource_value.
  - apply steady_get_threads.
  - apply steady_get_mem.
  - apply steady_get_runtime.
  - intros w H. exact H.
Qed.

Lemma steady_init a h out : steady (self (__init__ a h out)) (__init__ a h out).
Proof.
  split; [apply init_presets|]. split; [|reflexivity].
  intros rule e. rewrite init_resources, lookup_empty. discriminate.
Qed.

Lemma reachable_steady w :
  reachable w -> exists a h out, steady (self (__init__ a h out)) w.
Proof.
  induction 1 as [a h out|c w Hw (a & h & out & IH)|w h' out' Hw (a & h & out & IH)].
  - exists a, h, out. apply steady_init.
  - exists a, h, out. apply steady_run, IH.
  - exists a, h, out. exact IH.
Qed.

Lemma resources_getitem_auto w rule key :
  cache_auto (self w) ->
  answer (resources_getitem rule key) w = Ok (default (VInt 0) (resolved w rule key)).
Proof.
  intros Ha. unfold answer, resolved, resources_getitem, resources_outer, bind, get_self.
  destruct (resources (self w) !! rule) as [e|] eqn:E; cbn.
  - destruct (items e !! key) eqn:K; cbn; [reflexivity|].
    rewrite (Ha _ _ E). reflexivity.
  - rewrite lookup_empty. reflexivity.
Qed.

Lemma reachable_invariant w :
  reachable w -> presets (self w) = None /\ cache_auto (self w).
Proof.
  intros H. destruct (reachable_steady w H) as (a & h & out & Hp & Ha & _). auto.
Qed.

(** X1.  In every world a program can reach, the presets of the manager are
    [None] and every value of its cache is a [defaultdict]: no method
    assigns [self.presets], and the plain dictionary of line 67 is never
    stored, since [allocate_resources] raises before it. *)
Theorem X1_reachable_invariant (w : world) :
  reachable w -> presets (self w) = None /\ cache_auto (self w).
Proof.
  intros H. destruct (reachable_steady w H) as (a & h & out & Hp & Ha & _).
  split; [exact Hp | exact Ha].
Qed.

Lemma X1_witness : presets (self world_4G) = None /\ cache_auto (self world_4G).
Proof.
  apply (X1_reachable_invariant world_4G).
  apply (reach_call (CallResolve "r" "mem_mb")), reach_init.
Defined.

(** X2.  In every reachable world [get_threads] answers without raising: it
    answers what the cache holds for the rule, and 0 when it holds nothing.
    When the cache holds a value the world is left as it was. *)
Theorem X2_get_threads_never_raises (w : world) (rule : string) :
  reachable w ->
  answer (get_threads rule) w
  = Ok (default (VInt 0) (resolved w rule (_threads_str (self w))))
  /\ (forall v, resolved w rule (_threads_str (self w)) = Some v ->
        get_threads rule w = (Ok v, w)).
Proof.
  intros H. destruct (reachable_invariant w H) as [_ Ha]. split.
  - pose proof (resources_getitem_auto w rule (_threads_str (self w)) Ha) as E.
    unfold answer in *. unfold get_threads, bind, get_self, try_except.
    destruct (resources_getitem rule (_threads_str (self w)) w) as [[v|e] w'];
      cbn in *; [exact E | discriminate].
  - intros v Hv. unfold get_threads, bind, get_self, try_except.
    rewrite (resources_getitem_hit _ _ _ _ Hv). reflexivity.
Qed.

Lemma X2_witness :
  answer (get_threads "q") world_4G
  = Ok (default (VInt 0) (resolved world_4G "q" (_threads_str (self world_4G))))
  /\ (forall v, resolved world_4G "q" (_threads_str (self world_4G)) = Some v ->
        get_threads "q" world_4G = (Ok v, world_4G)).
Proof.
  apply (X2_get_threads_never_raises world_4G "q").
  apply (reach_call (CallResolve "r" "mem_mb")), reach_init.
Defined.



Lemma resolved_store rule key v r w :
  resolved (World (with_resources (store rule key v r) (self w)) (heap w) (stdout w))
    rule key = Some v.
Proof.
  unfold resolved, store. cbn.
  destruct (r !! rule); rewrite lookup_insert_eq; cbn; apply lookup_insert_eq.
Qed.

(** X4.  When the definitions say nothing of a rule and a key, but the
    default rule has the key, [get_resource_value] stores the value of the
    default rule as it is, prints one line naming the key, the rule and the
    value, and leaves the caller's dictionaries alone. *)
Theorem X4_missing_definition_takes_the_default (w : world) (rule resource : string)
    (v : value) :
  lookup2 (defined w) rule resource = None ->
  lookup2 (defined w) (_default_str (self w)) resource = Some v ->
  let w' := after (get_resource_value rule resource) w in
  answer (get_resource_value rule resource) w = Ok VNone
  /\ resolved w' rule resource = Some v
  /\ stdout w' = (stdout w ++ [msg_using_default resource rule v])%list
  /\ heap w' = heap w.
Proof.
  intros Hr Hd. unfold after, answer. cbn zeta.
  rewrite get_resource_value_resolution. unfold resolution, fallback.
  rewrite Hr, Hd. cbn. split; [reflexivity|]. split; [|auto].
  unfold resolved, store. cbn.
  destruct (resources (self w) !! rule); rewrite lookup_insert_eq; cbn;
    apply lookup_insert_eq.
Qed.

Lemma X4_witness :
  let w' := after (get_resource_value "q" "threads") world_cache in
  answer (get_resource_value "q" "threads") world_cache = Ok VNone
  /\ resolved w' "q" "threads" = Some (VInt 1)
  /\ stdout w'
     = (stdout world_cache ++ [msg_using_default "threads" "q" (VInt 1)])%list
  /\ heap w' = heap world_cache.
Proof.
  apply (X4_missing_definition_takes_the_default world_cache "q" "threads" (VInt 1));
    vm_compute; reflexivity.
Defined.



(** X6.  A key that neither the rule nor the default rule defines makes
    [get_resource_value] raise [KeyError]; nothing is stored or printed. *)
Theorem X6_unknown_key_raises_KeyError (w : world) (rule resource : string) :
  lookup2 (defined w) rule resource = None ->
  lookup2 (defined w) (_default_str (self w)) resource = None ->
  get_resource_value rule resource w = (Raise KeyError, w).
Proof.
  intros Hr Hd. rewrite get_resource_value_resolution. unfold resolution, fallback.
  rewrite Hr, Hd. apply f_equal, logged_nil.
Qed.

Lemma X6_witness :
  get_resource_value "a" "gpu" world_cache = (Raise KeyError, world_cache).
Proof.
  apply (X6_unknown_key_raises_KeyError world_cache "a" "gpu"); vm_compute; reflexivity.
Defined.

Lemma resolved_store_other rule key v r w rule' key' :
  (rule', key') <> (rule, key) ->
  resolved (World (with_resources (store rule key v r) (self w)) (heap w) (stdout w))
    rule' key'
  = match r !! rule' with Some e => items e !! key' | None => None end.
Proof.
  intros Hne. unfold resolved, store. cbn.
  destruct (decide (rule = rule')) as [<-|Hr].
  - assert (Hk : key <> key') by congruence.
    destruct (r !! rule) as [e|]; rewrite lookup_insert_eq; cbn;
      rewrite lookup_insert_ne by exact Hk; [reflexivity | apply lookup_empty].
  - destruct (r !! rule) as [e|]; rewrite lookup_insert_ne by exact Hr; reflexivity.
Qed.

(** X7.  [get_resource_value] changes no entry of the cache but the one of
    its rule and key. *)
Theorem X7_other_entries_are_untouched (w : world) (rule resource rule' key' : string) :
  (rule', key') <> (rule, resource) ->
  resolved (after (get_resource_value rule resource) w) rule' key' = resolved w rule' key'.
Proof.
  intros Hne. unfold after. rewrite get_resource_value_resolution.
  destruct (resolution _ _ _ _ _) as [[v|e] msgs]; cbn [snd].
  - apply (resolved_store_other rule resource v (resources (self w))
             (World (self w) (heap w) (stdout w ++ msgs)) rule' key' Hne).
  - reflexivity.
Qed.

Lemma X7_witness :
  resolved (after (get_resource_value "q" "threads") world_4G) "r" "mem_mb"
  = resolved world_4G "r" "mem_mb".
Proof.
  apply (X7_other_entries_are_untouched world_4G "q" "threads" "r" "mem_mb").
  intros H. discriminate H.
Defined.

(** X8.  Calling [get_resource_value] a second time with the same arguments
    answers the same and changes nothing but standard output, to which the
    lines of the first call are added again: the value is resolved anew
    from the definitions, not read from the cache. *)
Theorem X8_repeated_resolution_only_prints_again (w : world) (rule resource : string) :
  let w1 := after (get_resource_value rule resource) w in
  let w2 := after (get_resource_value rule resource) w1 in
  exists msgs,
    stdout w1 = (stdout w ++ msgs)%list
    /\ w2 = logged msgs w1
    /\ answer (get_resource_value rule resource) w1
       = answer (get_resource_value rule resource) w.
Proof.
  unfold after, answer. cbn zeta.
  rewrite (get_resource_value_resolution rule resource w).
  destruct (resolution (defined w) (presets (self w)) (_default_str (self w)) rule resource)
    as [[v|e] msgs] eqn:Hr; cbn [snd fst]; exists msgs.
  - rewrite get_resource_value_resolution. unfold defined in *. cbn. rewrite Hr. cbn.
    unfold with_resources, logged. cbn. rewrite store_store. auto.
  - rewrite get_resource_value_resolution. unfold defined in *. cbn. rewrite Hr. cbn. auto.
Qed.

Lemma default_resources_int key v :
  default_resources !! key = Some v -> exists z, v = VInt z.
Proof.
  unfold default_resources. intros H.
  destruct (decide (key = "runtime_s")) as [->|H3];
    [rewrite lookup_insert_eq in H; injection H as <-; eauto|].
  rewrite lookup_insert_ne in H by congruence.
  destruct (decide (key = "mem_mb")) as [->|H2];
    [rewrite lookup_insert_eq in H; injection H as <-; eauto|].
  rewrite lookup_insert_ne in H by congruence.
  destruct (decide (key = "threads")) as [->|H1];
    [rewrite lookup_insert_eq in H; injection H as <-; eauto|].
  rewrite lookup_insert_ne in H by congruence. rewrite lookup_empty in H. discriminate.
Qed.

Lemma lookup2_default_args h out rule key :
  exists msgs,
    resolution (defined (__init__ default_args h out)) None "default" rule key
    = match default_resources !! key with
      | Some v => (Ok v, msgs)
      | None => (Raise KeyError, [])
      end.
Proof.
  rewrite defined_default_args. unfold resolution, fallback, lookup2.
  destruct (decide (rule = "default")) as [->|Hne].
  - rewrite lookup_singleton_eq.
    destruct (default_resources !! key) as [v|] eqn:K; [|exists []; reflexivity].
    destruct (default_resources_int _ _ K) as [z ->]. eexists; reflexivity.
  - rewrite lookup_singleton_ne by congruence. rewrite lookup_singleton_eq.
    destruct (default_resources !! key) as [v|].
    + exists [msg_using_default key rule v]. reflexivity.
    + exists []. reflexivity.
Qed.

Lemma resolve_default_args h out rule key v :
  default_resources !! key = Some v ->
  let w' := after (get_resource_value rule key) (__init__ default_args h out) in
  resolved w' rule key = Some v
  /\ settings (self w') = settings (self (__init__ default_args h out)).
Proof.
  intros Hk w'. unfold w', after. rewrite get_resource_value_resolution.
  destruct (lookup2_default_args h out rule key) as [msgs E].
  rewrite init_presets.
  change (_default_str (self (__init__ default_args h out))) with "default".
  rewrite E, Hk. cbn [snd]. split; [apply resolved_store | reflexivity].
Qed.

Lemma settings_names s s' :
  settings s = settings s' ->
  _threads_str s = _threads_str s' /\ _memory_str s = _memory_str s'
  /\ _runtime_str s = _runtime_str s'
  /\ mem_attempt_multiplier s = mem_attempt_multiplier s'.
Proof.
  intros H. repeat split.
  - exact (f_equal _threads_str H).
  - exact (f_equal _memory_str H).
  - exact (f_equal _runtime_str H).
  - exact (f_equal mem_attempt_multiplier H).
Qed.

(** X9.  On a manager built with the default arguments, once a rule has been
    resolved for a key the getter reads the built-in default: 1 thread,
    2000 MB at attempt 1, 3600 s at attempt 1, whatever the rule. *)
Theorem X9_resolved_rule_reads_builtin_defaults (h : gmap loc ddict) (out : list string)
    (rule : string) :
  let w := __init__ default_args h out in
  answer (get_threads rule) (after (get_resource_value rule "threads") w) = Ok (VInt 1)
  /\ answer (get_mem rule 1) (after (get_resource_value rule "mem_mb") w) = Ok (VInt 2000)
  /\ answer (get_runtime rule 1) (after (get_resource_value rule "runtime_s") w)
     = Ok (VInt 3600).
Proof.
  intros w. split; [|split].
  - destruct (resolve_default_args h out rule "threads" (VInt 1) eq_refl) as [Hr Hs].
    apply settings_names in Hs as (Ht & _). fold w in Hr, Ht.
    unfold answer, get_threads, bind, get_self, try_except.
    rewrite Ht. change (_threads_str (self w)) with "threads".
    rewrite (resources_getitem_hit _ rule "threads" (VInt 1) Hr). reflexivity.
  - destruct (resolve_default_args h out rule "mem_mb" (VInt 2000) eq_refl) as [Hr Hs].
    apply settings_names in Hs as (_ & Hm & _ & Hx). fold w in Hr, Hm, Hx.
    unfold answer.
    rewrite (get_mem_numeric _ rule 1 (VInt 2000) (inject_Z 2000)); [|lia| |reflexivity].
    + rewrite Hx. reflexivity.
    + rewrite Hm. exact Hr.
  - destruct (resolve_default_args h out rule "runtime_s" (VInt 3600) eq_refl) as [Hr Hs].
    apply settings_names in Hs as (_ & _ & Hm & _). fold w in Hr, Hm.
    unfold answer.
    rewrite (get_runtime_accepts _ rule 1 (VInt 3600) 3600); [| |reflexivity].
    + reflexivity.
    + rewrite Hm. exact Hr.
Qed.




Lemma resources_getitem_multiplier m rule key w :
  resources_getitem rule key (with_runtime_attempt_multiplier m w)
  = (fst (resources_getitem rule key w),
     with_runtime_attempt_multiplier m (snd (resources_getitem rule key w))).
Proof.
  unfold resources_getitem, resources_outer, bind, get_self. cbn.
  destruct (resources (self w) !! rule) as [e|]; cbn.
  - destruct (items e !! key); cbn; [reflexivity|].
    destruct (auto e); reflexivity.
  - rewrite lookup_empty. reflexivity.
Qed.

(** X11.  The answer of [get_runtime] does not depend on
    [runtime_attempt_multiplier]: the attribute is set by the constructor
    and read nowhere. *)
Theorem X11_runtime_attempt_multiplier_is_ignored (w : world) (m : Q) (rule : string)
    (attempt : Z) :
  answer (get_runtime rule attempt) (with_runtime_attempt_multiplier m w)
  = answer (get_runtime rule attempt) w.
Proof.
  unfold answer, get_runtime, bind, try_except, get_self, lift, ret, raise, print.
  cbn [self with_runtime_attempt_multiplier _runtime_str _default_str].
  rewrite resources_getitem_multiplier.
  destruct (resources_getitem rule (_runtime_str (self w)) w) as [[v|e] w1]; cbn [fst snd].
  - destruct v as [|z|q|t]; [reflexivity|reflexivity|reflexivity|].
    destruct (unpack4 (re_split t)) as [f|[]]; reflexivity.
  - destruct e; cbn [exn_eqb]; try reflexivity.
    rewrite resources_getitem_multiplier.
    destruct (resources_getitem (_default_str (self w)) (_runtime_str (self w)) w1)
      as [[v|e] w2]; cbn [fst snd]; [|reflexivity].
    destruct v as [|z|q|t]; [reflexivity|reflexivity|reflexivity|].
    destruct (unpack4 (re_split t)) as [f|[]]; reflexivity.
Qed.





(** X13.  A memory string that is neither made of digits nor ended by [G],
    [M] or [K] is answered as it is, at every attempt: it is not scaled and
    no error is raised. *)
Theorem X13_unrecognised_memory_string_is_returned_as_is (w : world) (rule : string)
    (attempt : Z) (t : string) (c : ascii) :
  resolved w rule (_memory_str (self w)) = Some (VStr t) ->
  isdigit t = false ->
  last_char t = Ok c ->
  is_size_suffix c = false ->
  get_mem rule attempt w = (Ok (VStr t), w).
Proof.
  intros Hr Hd Hl Hc. unfold get_mem, bind, get_self, try_except.
  rewrite (resources_getitem_hit _ _ _ _ Hr).
  rewrite Hd. unfold lift. rewrite Hl, Hc. reflexivity.
Qed.

Lemma X13_witness :
  let w := resolved_world (defs_default (VStr "4GB") (VInt 3600)) "r" "mem_mb" in
  get_mem "r" 3 w = (Ok (VStr "4GB"), w).
Proof.
  apply (X13_unrecognised_memory_string_is_returned_as_is
           (resolved_world (defs_default (VStr "4GB") (VInt 3600)) "r" "mem_mb")
           "r" 3 "4GB" "B"%char);
    vm_compute; reflexivity.
Defined.

(** X14.  [get_mem] raises on three memory values: [AttributeError] on
    [None], [IndexError] on the empty string, and [ValueError] on a string
    made of a size suffix alone.  The world is left as it was. *)
Theorem X14_memory_values_that_raise (w : world) (rule : string) (attempt : Z)
    (v : value) :
  resolved w rule (_memory_str (self w)) = Some v ->
  (v = VNone -> get_mem rule attempt w = (Raise AttributeError, w))
  /\ (v = VStr "" -> get_mem rule attempt w = (Raise IndexError, w))
  /\ (forall c, is_size_suffix c = true -> v = VStr (String c "") ->
        get_mem rule attempt w = (Raise ValueError, w)).
Proof.
  intros Hr. unfold get_mem, bind, get_self, try_except.
  rewrite (resources_getitem_hit _ _ _ _ Hr).
  split; [|split].
  - intros ->. reflexivity.
  - intros ->. reflexivity.
  - intros c Hc ->. change (String c "") with ("" +:+ String c "").
    rewrite (isdigit_suffixed "" c Hc). unfold lift.
    rewrite (last_char_snoc "" c), Hc, (but_last_snoc "" c). reflexivity.
Qed.

Lemma X14_witness :
  let w := resolved_world (defs_default (VStr "G") (VInt 3600)) "r" "mem_mb" in
  (VStr "G" = VNone -> get_mem "r" 1 w = (Raise AttributeError, w))
  /\ (VStr "G" = VStr "" -> get_mem "r" 1 w = (Raise IndexError, w))
  /\ (forall c, is_size_suffix c = true -> VStr "G" = VStr (String c "") ->
        get_mem "r" 1 w = (Raise ValueError, w)).
Proof.
  apply (X14_memory_values_that_raise
           (resolved_world (defs_default (VStr "G") (VInt 3600)) "r" "mem_mb")
           "r" 1 (VStr "G")).
  vm_compute. reflexivity.
Defined.



(** X16.  Built without definitions, the manager holds a dictionary of its
    own, made of the default rule alone; every dictionary of the caller and
    standard output are as they were. *)
Theorem X16_no_definitions_means_a_new_dictionary (a : init_args) (h : gmap loc ddict)
    (out : list string) :
  arg_resources a = None ->
  let w := __init__ a h out in
  h !! defined_resources (self w) = None
  /\ defined w = {[ arg_default_str a := injected_default a ]}
  /\ (forall l d, h !! l = Some d -> heap w !! l = Some d)
  /\ stdout w = out.
Proof.
  intros Ha w. unfold w, defined, __init__. rewrite Ha. cbn.
  assert (Hf : h !! fresh (dom h) = None).
  { apply not_elem_of_dom, is_fresh. }
  rewrite lookup_insert_eq. cbn. rewrite lookup_empty. cbn.
  rewrite lookup_insert_eq. cbn.
  split; [exact Hf|]. split; [reflexivity|]. split; [|reflexivity].
  intros l d Hl. rewrite !lookup_insert_ne; [exact Hl| |]; congruence.
Qed.

Lemma X16_witness :
  let w := __init__ default_args (heap_of defs_cache) [] in
  heap_of defs_cache !! defined_resources (self w) = None
  /\ defined w = {[ arg_default_str default_args := injected_default default_args ]}
  /\ (forall l d, heap_of defs_cache !! l = Some d -> heap w !! l = Some d)
  /\ stdout w = [].
Proof.
  apply (X16_no_definitions_means_a_new_dictionary default_args (heap_of defs_cache) []).
  reflexivity.
Defined.

(** X17.  After construction the definitions have the default rule, under
    the name given to the constructor.  A default rule that was there is
    kept as it is, with the keys it has: the constructor does not complete
    it, and changes nothing in the heap. *)
Theorem X17_default_rule_is_present_not_completed (a : init_args) (h : gmap loc ddict)
    (out : list string) :
  let w := __init__ a h out in
  is_Some (defined w !! arg_default_str a)
  /\ _default_str (self w) = arg_default_str a
  /\ (forall l d e,
        arg_resources a = Some l -> h !! l = Some d -> d !! arg_default_str a = Some e ->
        defined w = d /\ heap w = h).
Proof.
  intros w. unfold w, defined, __init__.
  destruct (arg_resources a) as [l|] eqn:Ha.
  - destruct (h !! l) as [d|] eqn:Hl; cbn.
    + destruct (d !! arg_default_str a) as [e|] eqn:Hd; cbn.
      * rewrite Hl. cbn. split; [eauto|]. split; [reflexivity|].
        intros l' d' e' [= <-] Hl' _. rewrite Hl in Hl'. injection Hl' as <-. auto.
      * rewrite lookup_insert_eq. cbn. rewrite lookup_insert_eq.
        split; [eauto|]. split; [reflexivity|].
        intros l' d' e' [= <-] Hl' Hd'. rewrite Hl in Hl'. injection Hl' as <-.
        congruence.
    + rewrite lookup_empty. cbn. rewrite lookup_insert_eq. cbn. rewrite lookup_insert_eq.
      split; [eauto|]. split; [reflexivity|].
      intros l' d' e' [= <-] Hl' _. congruence.
  - cbn. rewrite lookup_insert_eq. cbn. rewrite lookup_empty. cbn.
    rewrite lookup_insert_eq. cbn. rewrite lookup_insert_eq.
    split; [eauto|]. split; [reflexivity|]. intros l d e H. discriminate H.
Qed.

Lemma X17_witness :
  let w := __init__ (args_on None)
             (heap_of {[ "default" := {[ "threads" := VInt 2 ]} ]}) [] in
  is_Some (defined w !! "default")
  /\ _default_str (self w) = "default"
  /\ (forall l d e,
        Some 0%nat = Some l ->
        heap_of {[ "default" := {[ "threads" := VInt 2 ]} ]} !! l = Some d ->
        d !! "default" = Some e ->
        defined w = d
        /\ heap w = heap_of {[ "default" := {[ "threads" := VInt 2 ]} ]}).
Proof.
  exact (X17_default_rule_is_present_not_completed (args_on None)
           (heap_of {[ "default" := {[ "threads" := VInt 2 ]} ]}) []).
Defined.




Import Utils.LoggerWriter.

(** ** [LoggerWriter] *)

Lemma str_find_cut c s pos :
  str_find c s = Some pos ->
  exists pre,
    s = pre +:+ String c (str_from (S pos) s)
    /\ String.length pre = pos
    /\ str_find c pre = None.
Proof.
  revert pos. induction s as [|a r IH]; intros pos; cbn; [discriminate|].
  destruct (Ascii.eqb a c) eqn:E.
  - intros [= <-]. apply Ascii.eqb_eq in E as ->. exists "". auto.
  - destruct (str_find c r) as [p|] eqn:F; [|discriminate]. intros [= <-].
    destruct (IH p eq_refl) as (pre & Hs & Hl & Hn).
    exists (String a pre).
    change (str_from (S (S p)) (String a r)) with (str_from (S p) r).
    split; [|split].
    + change (String a pre +:+ String c (str_from (S p) r))
        with (String a (pre +:+ String c (str_from (S p) r))).
      rewrite <- Hs. reflexivity.
    + cbn [String.length]. rewrite Hl. reflexivity.
    + cbn [str_find]. rewrite E, Hn. reflexivity.
Qed.

Lemma append_cons a s t : String a s +:+ t = String a (s +:+ t).
Proof. reflexivity. Qed.

Lemma length_append s t : String.length (s +:+ t) = (String.length s + String.length t)%nat.
Proof.
  induction s as [|a s IH]; [reflexivity|].
  rewrite append_cons. cbn [String.length]. rewrite IH. reflexivity.
Qed.

Lemma count_append c s t : count_char c (s +:+ t) = (count_char c s + count_char c t)%nat.
Proof.
  induction s as [|a s IH]; [reflexivity|].
  rewrite append_cons. cbn [count_char].
  destruct (Ascii.eqb a c); rewrite IH; reflexivity.
Qed.

Lemma str_find_None_count c s : str_find c s = None -> count_char c s = O.
Proof.
  induction s as [|a r IH]; cbn; [reflexivity|].
  destruct (Ascii.eqb a c); [discriminate|].
  destruct (str_find c r); [discriminate | auto].
Qed.

Lemma append_assoc s t u : (s +:+ t) +:+ u = s +:+ (t +:+ u).
Proof.
  induction s as [|a s IH]; [reflexivity|].
  rewrite !append_cons, IH. reflexivity.
Qed.

(** The loop ends within as many turns as the text held back has
    characters. *)
Lemma drain_spec name n :
  forall lw, (String.length (_msg lw) <= n)%nat ->
  exists lw' new,
    drain n name lw = Some lw'
    /\ level lw' = level lw
    /\ logger lw' = (logger lw ++ new)%list
    /\ length new = count_char newline (_msg lw)
    /\ Forall (fun r => fst r = level lw) new
    /\ after_last_newline (_msg lw) (_msg lw').
Proof.
  induction n as [|n IH]; intros lw Hn.
  - destruct (_msg lw) as [|a r] eqn:E; [|cbn in Hn; lia].
    exists lw, []. cbn. rewrite E. cbn. rewrite app_nil_r.
    repeat split; auto. 
  - cbn [drain]. destruct (str_find newline (_msg lw)) as [pos|] eqn:F.
    + destruct (str_find_cut _ _ _ F) as (pre & Hs & Hl & Hp).
      assert (Hlen : (String.length (_msg (turn name pos lw)) <= n)%nat).
      { cbn. rewrite Hs in Hn. rewrite length_append in Hn. cbn in Hn. lia. }
      destruct (IH _ Hlen) as (lw' & new & Hd & Hlv & Hlg & Hc & Hf & Hfind & Hsuf).
      exists lw', ((level lw, tag name +:+ but_last (_msg lw)) :: new).
      split; [exact Hd|]. split; [exact Hlv|].
      split; [rewrite Hlg; cbn; rewrite <- app_assoc; reflexivity|].
      split.
      { cbn [length]. rewrite Hc. cbn [turn _msg].
        rewrite Hs at 2. rewrite count_append. cbn.
        rewrite Ascii.eqb_refl, (str_find_None_count _ _ Hp). reflexivity. }
      split; [constructor; [reflexivity | exact Hf]|].
      split; [exact Hfind|]. right. cbn [turn _msg] in Hsuf.
      destruct Hsuf as [Hsuf|(p & Hsuf)].
      * exists pre. rewrite <- Hsuf. exact Hs.
      * exists (pre +:+ String newline p). rewrite append_assoc, append_cons.
        rewrite <- Hsuf. exact Hs.
    + exists lw, []. rewrite app_nil_r, (str_find_None_count _ _ F).
      repeat split; auto.
Qed.

Lemma write_spec name message lw :
  exists lw' new,
    write name message lw = Some lw'
    /\ level lw' = level lw
    /\ logger lw' = (logger lw ++ new)%list
    /\ length new = count_char newline (_msg lw +:+ message)
    /\ Forall (fun r => fst r = level lw) new
    /\ after_last_newline (_msg lw +:+ message) (_msg lw').
Proof.
  unfold write.
  apply (drain_spec name _ (State (logger lw) (level lw) (_msg lw +:+ message))).
  reflexivity.
Qed.

(** X19.  [LoggerWriter.write] always ends.  It keeps the level, and the
    text it holds back afterwards has no newline: it is what follows the
    last newline of the text held back before followed by the message. *)
Theorem X19_write_ends_and_holds_back_the_unfinished_line (name message : string)
    (lw : LoggerWriter.state) :
  exists lw',
    write name message lw = Some lw'
    /\ level lw' = level lw
    /\ after_last_newline (_msg lw +:+ message) (_msg lw').
Proof.
  destruct (write_spec name message lw) as (lw' & new & H & Hl & _ & _ & _ & Hs).
  exists lw'. auto.
Qed.

(** X20.  [LoggerWriter.write] hands the logger one record for each newline
    of the text held back followed by the message, at the level of the
    writer, after the records the logger had. *)
Theorem X20_write_logs_one_record_per_newline (name message : string)
    (lw lw' : LoggerWriter.state) :
  write name message lw = Some lw' ->
  exists new,
    logger lw' = (logger lw ++ new)%list
    /\ length new = count_char newline (_msg lw +:+ message)
    /\ Forall (fun r => fst r = level lw) new.
Proof.
  intros H.
  destruct (write_spec name message lw) as (lw2 & new & H2 & _ & Hg & Hc & Hf & _).
  rewrite H in H2. injection H2 as <-. exists new. auto.
Qed.

Lemma X20_witness :
  exists new,
    logger (State [(20, "(PYTHON: m.py)  a")] 20 "")
    = (logger (LoggerWriter.__init__ [] 20) ++ new)%list
    /\ length new
       = count_char newline
           (_msg (LoggerWriter.__init__ [] 20) +:+ ("a" +:+ String newline ""))
    /\ Forall (fun r => fst r = level (LoggerWriter.__init__ [] 20)) new.
Proof.
  apply (X20_write_logs_one_record_per_newline "m" ("a" +:+ String newline "")
           (LoggerWriter.__init__ [] 20) (State [(20, "(PYTHON: m.py)  a")] 20 "")).
  vm_compute. reflexivity.
Defined.

Lemma str_find_append c a b :
  str_find c a = None -> str_find c (a +:+ String c b) = Some (String.length a).
Proof.
  induction a as [|x a IH]; cbn [str_find].
  - intros _. change ("" +:+ String c b) with (String c b). cbn.
    rewrite Ascii.eqb_refl. reflexivity.
  - rewrite append_cons. cbn [str_find String.length].
    destruct (Ascii.eqb x c); [discriminate|].
    destruct (str_find c a); [discriminate|]. intros _. rewrite (IH eq_refl). reflexivity.
Qed.

Lemma str_from_append a b : str_from (String.length a) (a +:+ b) = b.
Proof.
  induction a as [|x a IH]; [destruct b; reflexivity|].
  rewrite append_cons. cbn [String.length str_from]. exact IH.
Qed.

Lemma str_from_past a c b : str_from (S (String.length a)) (a +:+ String c b) = b.
Proof.
  induction a as [|x a IH]; [reflexivity|].
  rewrite append_cons. cbn [String.length]. exact IH.
Qed.

(** One turn on a text whose first newline comes after [a]. *)
Lemma drain_turn name n a b lg lv :
  str_find newline a = None ->
  drain (S n) name (State lg lv (a +:+ String newline b))
  = drain n name
      (State (lg ++ [(lv, tag name +:+ but_last (a +:+ String newline b))]) lv b).
Proof.
  intros Ha. cbn [drain _msg]. rewrite (str_find_append _ _ _ Ha).
  unfold turn. cbn [logger level _msg]. rewrite str_from_past. reflexivity.
Qed.

Lemma drain_done name n lg lv b :
  str_find newline b = None -> drain n name (State lg lv b) = Some (State lg lv b).
Proof. intros Hb. destruct n; cbn; rewrite Hb; reflexivity. Qed.

(** X21.  When the text held back followed by the message has one newline,
    [write] logs one record, made of the tag and of that text but its last
    character, and holds back what follows the newline.  When the newline
    ends the text, the record is the line. *)
Theorem X21_write_of_one_newline (name message a b : string) (lw : LoggerWriter.state) :
  _msg lw +:+ message = a +:+ String newline b ->
  str_find newline a = None ->
  str_find newline b = None ->
  write name message lw
  = Some (State (logger lw ++ [(level lw, tag name +:+ but_last (a +:+ String newline b))])
                 (level lw) b)
  /\ but_last (a +:+ String newline "") = a.
Proof.
  intros Ht Ha Hb. split; [|apply but_last_snoc].
  unfold write. cbn [_msg]. rewrite Ht.
  rewrite length_append. cbn [String.length]. rewrite Nat.add_succ_r.
  rewrite (drain_turn _ _ _ _ _ _ Ha). apply drain_done, Hb.
Qed.

Lemma X21_witness :
  write "m" ("a" +:+ String newline "") (LoggerWriter.__init__ [] 20)
  = Some (State
            (logger (LoggerWriter.__init__ [] 20)
             ++ [(level (LoggerWriter.__init__ [] 20),
                  tag "m" +:+ but_last ("a" +:+ String newline ""))])
            (level (LoggerWriter.__init__ [] 20)) "")
  /\ but_last ("a" +:+ String newline "") = "a".
Proof.
  apply (X21_write_of_one_newline "m" ("a" +:+ String newline "") "a" ""
           (LoggerWriter.__init__ [] 20));
    reflexivity.
Defined.

(** X22.  A message of two complete lines, written to a writer that holds
    nothing back, is logged as two records: the first is made of both
    lines, the second of the second line. *)
Theorem X22_write_of_two_lines (name a b : string) (lw : LoggerWriter.state) :
  _msg lw = "" ->
  str_find newline a = None ->
  str_find newline b = None ->
  write name (a +:+ String newline (b +:+ String newline "")) lw
  = Some (State (logger lw ++ [(level lw, tag name +:+ a +:+ String newline b);
                                (level lw, tag name +:+ b)])
                 (level lw) "").
Proof.
  intros Hm Ha Hb. unfold write. cbn [_msg]. rewrite Hm.
  change ("" +:+ ?x) with x.
  rewrite length_append. cbn [String.length]. rewrite Nat.add_succ_r.
  rewrite (drain_turn _ _ _ _ _ _ Ha).
  rewrite length_append. cbn [String.length]. rewrite Nat.add_succ_r.
  rewrite Nat.add_succ_r.
  rewrite (drain_turn _ _ _ _ _ _ Hb).
  rewrite drain_done by reflexivity.
  rewrite but_last_snoc.
  replace (but_last (a +:+ String newline (b +:+ String newline "")))
    with (a +:+ String newline b).
  - rewrite <- app_assoc. reflexivity.
  - symmetry.
    change (a +:+ String newline (b +:+ String newline ""))
      with (a +:+ (String newline b +:+ String newline "")).
    rewrite <- append_assoc. apply but_last_snoc.
Qed.

Lemma X22_witness :
  write "m" ("a" +:+ String newline ("b" +:+ String newline ""))
    (LoggerWriter.__init__ [] 20)
  = Some (State
            (logger (LoggerWriter.__init__ [] 20)
             ++ [(level (LoggerWriter.__init__ [] 20), tag "m" +:+ "a" +:+ String newline "b");
                 (level (LoggerWriter.__init__ [] 20), tag "m" +:+ "b")])
            (level (LoggerWriter.__init__ [] 20)) "").
Proof.
  apply (X22_write_of_two_lines "m" "a" "b" (LoggerWriter.__init__ [] 20)); reflexivity.
Defined.

(** X23.  Text without a newline accumulates: writing [m1] and then [m2]
    is writing [m1] followed by [m2], as long as [m1] completes no line. *)
Theorem X23_partial_lines_accumulate (name m1 m2 : string) (lw : LoggerWriter.state) :
  str_find newline (_msg lw +:+ m1) = None ->
  (write name m1 lw ≫= write name m2) = write name (m1 +:+ m2) lw.
Proof.
  intros H. unfold write at 2. cbn [_msg]. rewrite drain_done by exact H.
  cbn [mbind option_bind]. unfold write. cbn [_msg logger level].
  rewrite append_assoc. reflexivity.
Qed.

Lemma X23_witness :
  (write "m" "a" (LoggerWriter.__init__ [] 20)
     ≫= write "m" ("b" +:+ String newline ""))
  = write "m" ("a" +:+ ("b" +:+ String newline "")) (LoggerWriter.__init__ [] 20).
Proof.
  apply (X23_partial_lines_accumulate "m" "a" ("b" +:+ String newline "")
           (LoggerWriter.__init__ [] 20)).
  reflexivity.
Defined.

(** ** [json_object_hook] *)

Lemma converted_not_str v : (forall s, v <> JStr s) -> converted v = v.
Proof. destruct v; try reflexivity. intros H. destruct (H s eq_refl). Qed.



(** X24.  [json_object_hook] answers a dictionary with the same keys,
    in which every value that is not a string is the one it was. *)
Theorem X24_hook_keeps_keys_and_other_values (obj : gmap string json) :
  dom (json_object_hook obj) = dom obj
  /\ (forall k v, obj !! k = Some v -> (forall s, v <> JStr s) ->
        json_object_hook obj !! k = Some v).
Proof.
  unfold json_object_hook. split; [apply dom_fmap_L|].
  intros k v Hk Hv. rewrite lookup_fmap, Hk. cbn. rewrite (converted_not_str _ Hv).
  reflexivity.
Qed.

Lemma X24_witness :
  dom (json_object_hook {[ "n" := JStr "042"; "b" := JBool true ]})
  = dom ({[ "n" := JStr "042"; "b" := JBool true ]} : gmap string json)
  /\ (forall k v,
        ({[ "n" := JStr "042"; "b" := JBool true ]} : gmap string json) !! k = Some v ->
        (forall s, v <> JStr s) ->
        json_object_hook {[ "n" := JStr "042"; "b" := JBool true ]} !! k = Some v).
Proof.
  exact (X24_hook_keeps_keys_and_other_values {[ "n" := JStr "042"; "b" := JBool true ]}).
Defined.





(** ** [flatten] *)

Lemma flatten_app {A} (l1 l2 : list (element A)) :
  flatten (l1 ++ l2) = (flatten l1 ++ flatten l2)%list.
Proof. unfold flatten. apply flat_map_app. Qed.

(** X27.  [flatten] yields the elements in order, whatever the nesting: an
    iterable among the elements yields what its own elements would yield in
    its place, and what a sequence followed by another yields is what the
    first yields followed by what the second yields. *)
Theorem X27_flatten_removes_brackets_in_place {A} (l1 l l2 : list (element A)) :
  flatten (l1 ++ Iterable l :: l2) = flatten (l1 ++ l ++ l2)
  /\ flatten (l1 ++ l2) = (flatten l1 ++ flatten l2)%list.
Proof.
  split; [|apply flatten_app].
  rewrite !flatten_app. reflexivity.
Qed.

(** X28.  [flatten] yields a sequence without iterables as it is; so
    flattening what [flatten] yielded changes nothing. *)
Theorem X28_flatten_of_a_flat_sequence {A} (l : list A) (t : list (element A)) :
  flatten (map Atom l) = l
  /\ flatten (map Atom (flatten t)) = flatten t.
Proof.
  assert (H : forall l0 : list A, flatten (map Atom l0) = l0).
  { unfold flatten. induction l0 as [|a l0 IH]; [reflexivity|].
    cbn. rewrite IH. reflexivity. }
  split; apply H.
Qed.
